(** * wav2png: the waveform renderer of [src/wav2png.cpp]

    A shallow embedding of [compute_waveform] and [main], with the machine
    arithmetic of the C++ source written out, and the properties of the
    renderer proved over it. *)

From Stdlib Require Import ZArith Lia Ascii String.
From stdpp Require Import base list strings sorting.

Local Open Scope Z_scope.

(** ** Machine integers

    [unsigned] and [png::uint_32] are 32 bits wide, [int] is 32 bits wide and
    signed, [short] is 16 bits wide and signed, [size_t] and [sf_count_t] are
    64 bits wide.  Unsigned arithmetic wraps; a conversion to [int] keeps the
    low 32 bits. *)

Definition u32 (z : Z) : Z := z mod 2 ^ 32.

Definition to_int (z : Z) : Z := (z + 2 ^ 31) mod 2 ^ 32 - 2 ^ 31.

Definition is_unsigned (z : Z) : Prop := 0 <= z < 2 ^ 32.

Definition is_short (z : Z) : Prop := - 2 ^ 15 <= z < 2 ^ 15.

(** ** [clamp] and [sample_scale<short>] *)

(** [std::max(min, std::min(max, x))] *)
Definition clamp (x lo hi : Z) : Z := Z.max lo (Z.min hi x).

(** [1 << (sizeof(short)*8-1)], an [unsigned short] *)
Definition sample_scale : Z := Z.shiftl 1 (2 * 8 - 1).

(** ** The vertical span of a column

    [h] is [unsigned], [min] and [max] are [short]: [-min] and [max] are
    promoted to [int] and converted to [unsigned] by the product with [h], so
    the products, the difference and the sum are taken modulo [2^32]. *)

(** [clamp<size_t>((h-(-min*h/sample_scale<sample_type>::value))/2, 0, h)] *)
Definition span_top (h mn : Z) : Z :=
  clamp (u32 (h - u32 (u32 (- mn) * h) / sample_scale) / 2) 0 h.

(** [clamp<size_t>((h+max*h/sample_scale<sample_type>::value)/2, 0, h)] *)
Definition span_bottom (h mx : Z) : Z :=
  clamp (u32 (h + u32 (u32 mx * h) / sample_scale) / 2) 0 h.

(** The formulas as the specification writes them, over the integers and
    with truncating division ([÷]):
    [y1 = clamp((h - (-min * h / full_scale)) / 2, 0, h)] and
    [y2 = clamp((h + max * h / full_scale) / 2, 0, h)]. *)
Definition spec_y1 (full_scale h mn : Z) : Z :=
  clamp ((h - (- mn * h ÷ full_scale)) ÷ 2) 0 h.

Definition spec_y2 (full_scale h mx : Z) : Z :=
  clamp ((h + mx * h ÷ full_scale) ÷ 2) 0 h.

(** ** Aborting computations

    An [assert] that fails, an access outside a [std::vector] and a signed
    overflow end the run; the constructors say which. *)

Inductive abort : Type :=
  | AssertWidth   (* assert(image.get_width() > 0) *)
  | AssertBlock   (* assert(n <= (sf_count_t)block.size()) *)
  | AssertY1      (* assert(0 <= y1 && y1 <= h/2) *)
  | AssertY2      (* assert(h/2 <= y2 && y2 <= h) *)
  | AssertXX      (* assert( xx < out_image.get_width() ) *)
  | Undefined.    (* signed overflow, access out of bounds, bad allocation *)

Inductive result (A : Type) : Type :=
  | Ok (a : A)
  | Abort (e : abort).

Arguments Ok {A} a.
Arguments Abort {A} e.

#[global] Instance result_ret : MRet result := fun A a => Ok a.

#[global] Instance result_bind : MBind result := fun A B f m =>
  match m with
  | Ok a => f a
  | Abort e => Abort e
  end.

Definition assert (b : bool) (e : abort) : result unit :=
  if b then Ok tt else Abort e.

(** A [for] loop over the indices [ix], threading the state [s]. *)
Fixpoint for_each {St : Type} (body : St -> Z -> result St) (s : St) (ix : list Z)
  : result St :=
  match ix with
  | [] => Ok s
  | i :: ix => s' ← body s i; for_each body s' ix
  end.

(** ** Pixels and images ([png::image<png::rgba_pixel>]) *)

Record rgba_pixel : Type := RGBA { red : Z; green : Z; blue : Z; alpha : Z }.

#[global] Instance rgba_pixel_eq_dec : EqDecision rgba_pixel.
Proof. solve_decision. Defined.

(** A default-constructed pixel. *)
Definition default_pixel : rgba_pixel := RGBA 0 0 0 0.

(** The image holds its dimensions and its rows, top row first.  [writes] is
    ghost state: the coordinates [(x, y)] assigned since the image was
    created, the latest first. *)
Record image : Type := Image {
  get_width : Z;
  get_height : Z;
  pixbuf : list (list rgba_pixel);
  writes : list (Z * Z)
}.

(** [png::image<png::rgba_pixel>(width, height)] *)
Definition new_image (w h : Z) : image :=
  Image w h (replicate (Z.to_nat h) (replicate (Z.to_nat w) default_pixel)) [].

Definition wf_image (img : image) : Prop :=
  is_unsigned (get_width img) /\ is_unsigned (get_height img) /\
  length (pixbuf img) = Z.to_nat (get_height img) /\
  Forall (fun row => length row = Z.to_nat (get_width img)) (pixbuf img).

(** The coordinates of the image. *)
Definition in_image (img : image) (x y : Z) : Prop :=
  0 <= x < get_width img /\ 0 <= y < get_height img.

(** [image[y][x]] *)
Definition get_pixel (img : image) (x y : Z) : option rgba_pixel :=
  if (0 <=? x) && (x <? get_width img) && (0 <=? y) && (y <? get_height img)
  then row ← pixbuf img !! Z.to_nat y; row !! Z.to_nat x
  else None.

(** [image.set_pixel(x, y, c)] and [image[y][x] = c] *)
Definition set_pixel (x y : Z) (c : rgba_pixel) (img : image) : result image :=
  if (0 <=? x) && (x <? get_width img) && (0 <=? y) && (y <? get_height img)
  then Ok (Image (get_width img) (get_height img)
             (alter (fun row => <[Z.to_nat x := c]> row) (Z.to_nat y) (pixbuf img))
             ((x, y) :: writes img))
  else Abort Undefined.

(** ** The audio source ([SndfileHandle])

    The handle of libsndfile: its error state, the frame and channel counts
    of the header, and the interleaved samples that have not been read yet. *)

Record SndfileHandle : Type := Sndfile {
  sf_error : Z;
  sf_strError : string;
  sf_frames : Z;
  sf_channels : Z;
  sf_unread : list Z
}.

Definition wf_source (wav : SndfileHandle) : Prop :=
  1 <= sf_channels wav < 2 ^ 31 /\
  0 <= sf_frames wav < 2 ^ 63 /\
  Z.of_nat (length (sf_unread wav)) = sf_frames wav * sf_channels wav /\
  Forall is_short (sf_unread wav).

(** [wav.readf(&block[0], frames)]: stores the next [frames] frames, or as
    many whole frames as are left, at the start of [block], moves the read
    position past them and returns their number. *)
Definition readf (wav : SndfileHandle) (block : list Z) (frames : Z)
  : Z * list Z * SndfileHandle :=
  let left := Z.of_nat (length (sf_unread wav)) / sf_channels wav in
  let got := Z.max 0 (Z.min frames left) in
  let n := Z.to_nat (got * sf_channels wav) in
  (got,
   take n (sf_unread wav) ++ drop n block,
   Sndfile (sf_error wav) (sf_strError wav) (sf_frames wav) (sf_channels wav)
     (drop n (sf_unread wav))).

(** ** [compute_waveform] *)

(** [for (int i=0; i<n; i+=wav.channels())] with the body
    [min = std::min(min, block[i]); max = std::max(max, block[i]);].
    With [i < n] and a step that is not positive the loop of the source does
    not end; [fuel] bounds the iterations. *)
Fixpoint scan_loop (fuel : nat) (channels n : Z) (block : list Z) (i mn mx : Z)
  : result (Z * Z) :=
  if i <? n then
    match fuel with
    | O => Abort Undefined
    | S fuel =>
        if (0 <=? i) && (i + channels <? 2 ^ 31) then
          match block !! Z.to_nat i with
          | Some s =>
              scan_loop fuel channels n block (i + channels)
                (Z.min mn s) (Z.max mx s)
          | None => Abort Undefined
          end
        else Abort Undefined
    end
  else Ok (mn, mx).

(** [sample_type min(0); sample_type max(0);] and the loop. *)
Definition scan (channels n : Z) (block : list Z) : result (Z * Z) :=
  scan_loop (Z.to_nat n) channels n block 0 0 0.

(** [assert(n <= (sf_count_t)block.size())], the scan for [min] and [max],
    and [y1] and [y2] with their assertions, for the [n] samples that a read
    has left in [block]. *)
Definition compute_spans (h channels n : Z) (block : list Z) : result (Z * Z) :=
  _ ← assert (n <=? Z.of_nat (length block)) AssertBlock;
  '(mn, mx) ← scan channels n block;
  let y1 := span_top h mn in
  _ ← assert ((0 <=? y1) && (y1 <=? h / 2)) AssertY1;
  let y2 := span_bottom h mx in
  _ ← assert ((h / 2 <=? y2) && (y2 <=? h)) AssertY2;
  Ok (y1, y2).

(** The three loops that fill a column are instances of this one. *)
Definition fill (x : Z) (c : rgba_pixel) (img : image) (ys : list Z)
  : result image :=
  for_each (fun img y => set_pixel x y c img) img ys.

(** "fill span top to min", "fill span min to max", "fill span max to
    bottom" *)
Definition paint_column (bg_color fg_color : rgba_pixel) (h x : Z)
    (span : Z * Z) (img : image) : result image :=
  let '(y1, y2) := span in
  img ← fill x bg_color img (seqZ 0 y1);
  img ← fill x fg_color img (seqZ y1 (y2 - y1));
  fill x bg_color img (seqZ y2 (h - y2)).

(** The body of the loop over the columns.  The state is the audio source,
    the sample buffer [block] and the image that is drawn into.  The progress
    message written to [cerr] is left out. *)
Definition render_column (bg_color fg_color : rgba_pixel) (h frames_per_pixel : Z)
    (st : SndfileHandle * list Z * image) (x : Z)
  : result (SndfileHandle * list Z * image) :=
  let '(wav, block, img) := st in
  let '(got, block, wav) := readf wav block frames_per_pixel in
  span ← compute_spans h (sf_channels wav) (got * sf_channels wav) block;
  img ← paint_column bg_color fg_color h x span img;
  Ok (wav, block, img).

(** The width that is drawn: [not_enough_samples] and the width of
    [small_image]. *)
Definition not_enough_samples (frames width : Z) : bool := frames <? width.

Definition render_width (frames width : Z) : Z :=
  if not_enough_samples frames width
  then (if 0 <? frames then frames else 1)
  else width.

(** [std::max<int>(1, wav.frames() / image.get_width())] *)
Definition frames_per_pixel (frames w : Z) : Z := Z.max 1 (to_int (frames / w)).

(** [wav.channels() * frames_per_pixel], a product of two [int]. *)
Definition samples_per_pixel (channels fpp : Z) : result Z :=
  if (- 2 ^ 31 <=? channels * fpp) && (channels * fpp <? 2 ^ 31)
  then (if 0 <=? channels * fpp then Ok (channels * fpp) else Abort Undefined)
  else Abort Undefined.

(** From [assert(image.get_width() > 0)] to the end of the loop over the
    columns: [image] is drawn into, [h] is the height of [out_image]. *)
Definition render (wav : SndfileHandle) (img : image) (h : Z)
    (bg_color fg_color : rgba_pixel) : result image :=
  _ ← assert (0 <? get_width img) AssertWidth;
  let fpp := frames_per_pixel (sf_frames wav) (get_width img) in
  spp ← samples_per_pixel (sf_channels wav) fpp;
  let block := replicate (Z.to_nat spp) 0 in
  '(_, _, img) ← for_each (render_column bg_color fg_color h fpp)
                   (wav, block, img) (seqZ 0 (get_width img));
  Ok img.

(** [std::size_t] arithmetic. *)
Definition u64 (z : Z) : Z := z mod 2 ^ 64.

(** The loops that scale [small_image] up into [out_image]. *)
Definition upscale_pixel (small_image : image) (y : Z) (out_image : image) (x : Z)
  : result image :=
  let xx := u64 (x * get_width small_image) / get_width out_image in
  _ ← assert (xx <? get_width out_image) AssertXX;
  match get_pixel small_image xx y with
  | Some p => set_pixel x y p out_image
  | None => Abort Undefined
  end.

Definition upscale (small_image out_image : image) : result image :=
  for_each
    (fun out y =>
       for_each (upscale_pixel small_image y) out (seqZ 0 (get_width out)))
    out_image (seqZ 0 (get_height out_image)).

Definition compute_waveform (wav : SndfileHandle) (out_image : image)
    (bg_color fg_color : rgba_pixel) : result image :=
  let h := get_height out_image in
  if not_enough_samples (sf_frames wav) (get_width out_image) then
    let small_image :=
      new_image (render_width (sf_frames wav) (get_width out_image))
        (get_height out_image) in
    small_image ← render wav small_image h bg_color fg_color;
    upscale small_image out_image
  else render wav out_image h bg_color fg_color.

(** ** [main] *)

(** Modelled from the spec: [options.hpp] is not among the sources; [Options]
    has the fields that [main] reads, the configuration of section 4.2 of
    the specification. *)
Record Options : Type := {
  input_file_name : string;
  output_file_name : string;
  width : Z;
  height : Z;
  background_color : rgba_pixel;
  foreground_color : rgba_pixel
}.

(** What a run does, in order: a line on [cerr], the call of
    [compute_waveform], [image.write]. *)
Inductive event : Type :=
  | Cerr (line : string)
  | ComputeWaveform
  | ImageWrite (file_name : string) (img : image).

(** How a run ends: [return code], or [abort()]. *)
Inductive exit : Type :=
  | Return (code : Z)
  | Aborted (e : abort).

Definition endl : string := String (ascii_of_nat 10) EmptyString.

(** [main], for the options parsed from the command line and the audio
    library as the function [open] from a path to the handle that
    [SndfileHandle wav(path)] makes. *)
Definition main (options : Options) (open : string -> SndfileHandle)
  : exit * list event :=
  let wav := open (input_file_name options) in
  if bool_decide (sf_error wav <> 0) then
    (Return 2,
     [Cerr ("Error opening audio file '" +:+ input_file_name options +:+ "'" +:+ endl);
      Cerr ("Error was: '" +:+ sf_strError wav +:+ "'" +:+ endl)])
  else
    let image := new_image (width options) (height options) in
    match compute_waveform wav image
            (background_color options) (foreground_color options) with
    | Ok image =>
        (Return 0, [ComputeWaveform; ImageWrite (output_file_name options) image])
    | Abort e => (Aborted e, [ComputeWaveform])
    end.

(** ** The envelope of a column, as the specification words it

    "Scan only every [channel_count]-th sample starting at offset 0 among
    the [n] returned samples; compute [min] and [max] over this subset,
    seeded with 0." *)

(** The samples of channel 0 in the frames [first .. first + count - 1] of
    an interleaved block. *)
Definition left_channel (channels : Z) (block : list Z) (first count : Z) : list Z :=
  (fun j => default 0 (block !! Z.to_nat (j * channels))) <$> seqZ first count.

Definition envelope (mn mx : Z) (samples : list Z) : Z * Z :=
  (foldl Z.min mn samples, foldl Z.max mx samples).

(** ** What each column reads

    The audio source and the sample buffer after the first [k] columns, and
    the read of column [k]. *)
Fixpoint reads (wav : SndfileHandle) (block : list Z) (fpp : Z) (k : nat)
  : SndfileHandle * list Z :=
  match k with
  | O => (wav, block)
  | S k =>
      let '(wav, block) := reads wav block fpp k in
      let '(_, block, wav) := readf wav block fpp in
      (wav, block)
  end.

Definition column_read (wav : SndfileHandle) (block : list Z) (fpp : Z) (k : nat)
  : Z * list Z * SndfileHandle :=
  let '(wav, block) := reads wav block fpp k in readf wav block fpp.

(** The span of column [k]: [compute_spans] on what the column reads. *)
Definition column_span (h fpp : Z) (wav : SndfileHandle) (block : list Z) (k : nat)
  : result (Z * Z) :=
  let '(got, block, wav) := column_read wav block fpp k in
  compute_spans h (sf_channels wav) (got * sf_channels wav) block.

(** The colour of row [y] in a column with the span [(y1, y2)]. *)
Definition column_color (bg_color fg_color : rgba_pixel) (span : Z * Z) (y : Z)
  : rgba_pixel :=
  if decide (span.1 <= y < span.2) then fg_color else bg_color.

(** The coordinates of a [w] by [h] image, column after column and row
    after row. *)
Definition column_major (w h : Z) : list (Z * Z) :=
  x ← seqZ 0 w; (fun y => (x, y)) <$> seqZ 0 h.

Definition row_major (w h : Z) : list (Z * Z) :=
  y ← seqZ 0 h; (fun x => (x, y)) <$> seqZ 0 w.

(** The span that [render] computes for column [x] of an image [w] wide. *)
Definition rendered_span (wav : SndfileHandle) (w h x : Z) : result (Z * Z) :=
  let fpp := frames_per_pixel (sf_frames wav) w in
  spp ← samples_per_pixel (sf_channels wav) fpp;
  column_span h fpp wav (replicate (Z.to_nat spp) 0) (Z.to_nat x).

(** The state of the loop after [k] columns. *)
Definition columns_done (bg fg : rgba_pixel) (fpp : Z) (wav0 : SndfileHandle)
    (block0 : list Z) (img0 : image) (k : nat)
    (st : SndfileHandle * list Z * image) : Prop :=
  let h := get_height img0 in
  (st.1.1, st.1.2) = reads wav0 block0 fpp k /\
  wf_image st.2 /\
  get_width st.2 = get_width img0 /\ get_height st.2 = h /\
  writes st.2 = reverse (column_major (Z.of_nat k) h) ++ writes img0 /\
  (forall i, (i < k)%nat ->
     exists span, column_span h fpp wav0 block0 i = Ok span /\
       0 <= span.1 <= span.2 /\ span.2 <= h /\
       forall y, 0 <= y < h ->
         get_pixel st.2 (Z.of_nat i) y = Some (column_color bg fg span y)) /\
  (forall x y, ~ 0 <= x < Z.of_nat k -> get_pixel st.2 x y = get_pixel img0 x y).

(** [img'] is [img] after [render]: every column is painted with its span,
    every pixel is assigned once. *)
Definition rendered (bg fg : rgba_pixel) (wav : SndfileHandle) (img img' : image)
  : Prop :=
  let w := get_width img in
  let h := get_height img in
  wf_image img' /\ get_width img' = w /\ get_height img' = h /\
  writes img' = reverse (column_major w h) ++ writes img /\
  forall x, 0 <= x < w ->
    exists span, rendered_span wav w h x = Ok span /\
      0 <= span.1 <= span.2 /\ span.2 <= h /\
      forall y, 0 <= y < h ->
        get_pixel img' x y = Some (column_color bg fg span y).

(** [out'] is [out] after the columns of [small] are copied into it. *)
Definition upscaled (small out out' : image) : Prop :=
  let w := get_width out in
  let h := get_height out in
  wf_image out' /\ get_width out' = w /\ get_height out' = h /\
  writes out' = reverse (row_major w h) ++ writes out /\
  forall x y, 0 <= x < w -> 0 <= y < h ->
    0 <= x * get_width small / w < get_width small /\
    get_pixel out' x y = get_pixel small (x * get_width small / w) y.

(** The column of the drawn image that column [x] of the final image
    shows. *)
Definition source_column (frames width x : Z) : Z :=
  if not_enough_samples frames width
  then x * render_width frames width / width
  else x.

(** The image that [compute_waveform] draws into. *)
Definition drawn_image (wav : SndfileHandle) (out_image : image) : image :=
  if not_enough_samples (sf_frames wav) (get_width out_image)
  then new_image (render_width (sf_frames wav) (get_width out_image))
         (get_height out_image)
  else out_image.

(** [t] occurs in [s]. *)
Definition includes (s t : string) : Prop :=
  exists pre post, s = pre +:+ t +:+ post.

(** ** Sample runs *)

Definition white : rgba_pixel := RGBA 255 255 255 255.
Definition black : rgba_pixel := RGBA 0 0 0 255.

(** Nine mono frames, drawn four columns wide: two frames to a column. *)
Definition nine_frames : SndfileHandle :=
  Sndfile 0 "" 9 1 [0; 16384; -32768; 32767; 100; -100; 0; 0; 3].

Definition nine_frames_4x8 : image :=
  Eval vm_compute in
    match compute_waveform nine_frames (new_image 4 8) white black with
    | Ok img => img
    | Abort _ => new_image 0 0
    end.

(** Two stereo frames, fewer than the five columns of the image. *)
Definition two_frames : SndfileHandle :=
  Sndfile 0 "" 2 2 [-32768; 7; 32767; -7].

Definition two_frames_2x4 : image :=
  Eval vm_compute in
    match render two_frames (new_image 2 4) 4 white black with
    | Ok img => img
    | Abort _ => new_image 0 0
    end.

Definition two_frames_5x4 : image :=
  Eval vm_compute in
    match compute_waveform two_frames (new_image 5 4) white black with
    | Ok img => img
    | Abort _ => new_image 0 0
    end.

(** A source without frames. *)
Definition no_frames : SndfileHandle := Sndfile 0 "" 0 2 [].

(** A file that cannot be opened, and the options of a run on it. *)
Definition missing_file (path : string) : SndfileHandle :=
  Sndfile 2 "System error." 0 0 [].

Definition sample_options : Options :=
  {| input_file_name := "a.wav"; output_file_name := "a.png";
     width := 4; height := 8;
     background_color := white; foreground_color := black |}.

(** A file that opens without error and whose data end after 3 of the 9
    frames that it announces: reads past them come back short. *)
Definition truncated_file (path : string) : SndfileHandle :=
  Sndfile 0 "" 9 1 [0; 16384; -32768].

(** ** The columns of a run, frame by frame *)

(** The frames that the first [k] columns have taken from the source. *)
Definition frames_taken (wav : SndfileHandle) (fpp : Z) (k : nat) : Z :=
  Z.min (Z.of_nat k * fpp) (Z.of_nat (length (sf_unread wav)) / sf_channels wav).

(** [y1] and [y2] with their assertions, for a scanned [min] and [max]: what
    [compute_spans] does after the scan. *)
Definition check_spans (h : Z) (env : Z * Z) : result (Z * Z) :=
  let y1 := span_top h env.1 in
  _ ← assert ((0 <=? y1) && (y1 <=? h / 2)) AssertY1;
  let y2 := span_bottom h env.2 in
  _ ← assert ((h / 2 <=? y2) && (y2 <=? h)) AssertY2;
  Ok (y1, y2).

(** The minimum and the maximum, seeded with 0, of channel 0 in the frames
    of column [k]. *)
Definition column_envelope (wav : SndfileHandle) (fpp : Z) (k : nat) : Z * Z :=
  envelope 0 0
    (left_channel (sf_channels wav) (sf_unread wav) (frames_taken wav fpp k)
       (frames_taken wav fpp (S k) - frames_taken wav fpp k)).

(** Sources for the sample runs: five stereo frames, drawn two columns
    wide; the same with another right channel and another fifth frame; and
    three stereo frames whose left channel is silent. *)
Definition five_frames : SndfileHandle :=
  Sndfile 0 "" 5 2 [1000; 1; -2000; 2; 3000; 3; -4000; 4; 32767; 5].

Definition five_frames_other : SndfileHandle :=
  Sndfile 0 "" 5 2 [1000; 9; -2000; 8; 3000; 7; -4000; 6; -32768; 0].

Definition five_frames_2x8 : image :=
  Eval vm_compute in
    match compute_waveform five_frames (new_image 2 8) white black with
    | Ok img => img
    | Abort _ => new_image 0 0
    end.

Definition silent_left : SndfileHandle :=
  Sndfile 0 "" 3 2 [0; 5; 0; -7; 0; 9].

(** ** The progress messages

    [progress_divisor] is [std::max<std::size_t>(1, image.get_width()/100)];
    after the column [x] is painted, [if ( x%(progress_divisor) == 0 )] writes
    "converting: " and [100*x/image.get_width()] and "%" to [cerr]. *)
Definition progress_divisor (w : Z) : Z := Z.max 1 (w / 100).

Definition progress_percent (w x : Z) : Z := u64 (100 * x) / w.

(** The numbers written during the loop over the columns of an image [w]
    wide, in order. *)
Definition progress (w : Z) : list Z :=
  progress_percent w <$> filter (fun x => x mod progress_divisor w = 0) (seqZ 0 w).

(** * Properties *)

(** ** Arithmetic of the spans *)

Lemma sample_scale_eq : sample_scale = 2 ^ 15.
Proof. reflexivity. Qed.

Lemma u32_small z : 0 <= z < 2 ^ 32 -> u32 z = z.
Proof. intros H. unfold u32. apply Z.mod_small. exact H. Qed.

Lemma u32_range z : 0 <= u32 z < 2 ^ 32.
Proof. unfold u32. apply Z.mod_pos_bound. lia. Qed.

Lemma clamp_id x hi : 0 <= x <= hi -> clamp x 0 hi = x.
Proof. unfold clamp. lia. Qed.

Lemma clamp_range x hi : 0 <= hi -> 0 <= clamp x 0 hi <= hi.
Proof. unfold clamp. lia. Qed.

(** The quotient subtracted from [h] never exceeds [h], even when the
    product wraps. *)
Lemma top_quotient_le h mn :
  is_unsigned h -> - 2 ^ 15 <= mn <= 0 ->
  0 <= u32 (u32 (- mn) * h) / sample_scale <= h.
Proof.
  intros Hh Hmn. rewrite sample_scale_eq.
  rewrite (u32_small (- mn)) by (unfold is_unsigned in Hh; lia).
  pose proof (u32_range (- mn * h)) as Hr.
  split; [apply Z.div_pos; lia|].
  destruct (Z_lt_le_dec (- mn * h) (2 ^ 32)) as [Hlt|Hge].
  - rewrite u32_small by (unfold is_unsigned in Hh; nia).
    apply Z.div_le_upper_bound; [lia|]. unfold is_unsigned in Hh. nia.
  - assert (2 ^ 17 <= h) by (unfold is_unsigned in Hh; nia).
    assert (u32 (- mn * h) / 2 ^ 15 < 2 ^ 17)
      by (apply Z.div_lt_upper_bound; lia).
    lia.
Qed.

Lemma span_top_eq h mn :
  is_unsigned h -> - 2 ^ 15 <= mn <= 0 ->
  span_top h mn = (h - u32 (- mn * h) / 2 ^ 15) / 2.
Proof.
  intros Hh Hmn. pose proof (top_quotient_le h mn Hh Hmn) as Hq.
  unfold span_top. rewrite sample_scale_eq in *.
  rewrite (u32_small (- mn)) in * by (unfold is_unsigned in Hh; lia).
  unfold is_unsigned in Hh.
  rewrite (u32_small (h - _)) by lia.
  apply clamp_id. split.
  - apply Z.div_pos; lia.
  - apply Z.div_le_upper_bound; lia.
Qed.

Lemma span_top_le_half h mn :
  is_unsigned h -> - 2 ^ 15 <= mn <= 0 -> 0 <= span_top h mn <= h / 2.
Proof.
  intros Hh Hmn. rewrite span_top_eq by assumption.
  pose proof (top_quotient_le h mn Hh Hmn) as Hq.
  rewrite sample_scale_eq in Hq.
  rewrite (u32_small (- mn)) in Hq by (unfold is_unsigned in Hh; lia).
  unfold is_unsigned in Hh. split.
  - apply Z.div_pos; lia.
  - apply Z.div_le_mono; lia.
Qed.

Lemma span_bottom_range h mx :
  is_unsigned h -> 0 <= span_bottom h mx <= h.
Proof. intros Hh. unfold span_bottom. apply clamp_range. unfold is_unsigned in Hh. lia. Qed.

Lemma span_bottom_ge_half h mx :
  0 <= h -> h + 2 ^ 17 <= 2 ^ 32 -> 0 <= mx < 2 ^ 15 ->
  h / 2 <= span_bottom h mx.
Proof.
  intros Hh Hb Hmx. unfold span_bottom. rewrite sample_scale_eq.
  rewrite (u32_small mx) by lia.
  pose proof (u32_range (mx * h)) as Hr.
  assert (0 <= u32 (mx * h) / 2 ^ 15 < 2 ^ 17) as Hq.
  { split; [apply Z.div_pos; lia|apply Z.div_lt_upper_bound; lia]. }
  rewrite (u32_small (h + _)) by lia.
  assert (h / 2 <= (h + u32 (mx * h) / 2 ^ 15) / 2)
    by (apply Z.div_le_mono; lia).
  assert (h / 2 <= h) by (apply Z.div_le_upper_bound; lia).
  unfold clamp. lia.
Qed.

(** Below [2^17] rows nothing wraps and the spans are the formulas over the
    integers. *)
Lemma span_top_exact h mn :
  0 <= h < 2 ^ 17 -> - 2 ^ 15 <= mn <= 0 ->
  span_top h mn = spec_y1 (2 ^ 15) h mn.
Proof.
  intros Hh Hmn. unfold span_top, spec_y1. rewrite sample_scale_eq.
  rewrite (u32_small (- mn)) by lia.
  rewrite (u32_small (- mn * h)) by nia.
  assert (0 <= - mn * h / 2 ^ 15 <= h) as Hq.
  { split; [apply Z.div_pos; nia|apply Z.div_le_upper_bound; nia]. }
  rewrite (u32_small (h - _)) by lia.
  rewrite (Z.quot_div_nonneg (- mn * h)) by nia.
  rewrite Z.quot_div_nonneg by lia. reflexivity.
Qed.

Lemma span_bottom_exact h mx :
  0 <= h < 2 ^ 17 -> 0 <= mx < 2 ^ 15 ->
  span_bottom h mx = spec_y2 (2 ^ 15) h mx.
Proof.
  intros Hh Hmx. unfold span_bottom, spec_y2. rewrite sample_scale_eq.
  rewrite (u32_small mx) by lia.
  rewrite (u32_small (mx * h)) by nia.
  assert (0 <= mx * h / 2 ^ 15 <= h) as Hq.
  { split; [apply Z.div_pos; nia|apply Z.div_le_upper_bound; nia]. }
  rewrite (u32_small (h + _)) by lia.
  rewrite (Z.quot_div_nonneg (mx * h)) by nia.
  rewrite Z.quot_div_nonneg by lia. reflexivity.
Qed.

(** ** Reasoning about aborting computations and loops *)

Lemma bind_Ok {A B} (m : result A) (f : A -> result B) (b : B) :
  m ≫= f = Ok b -> exists a, m = Ok a /\ f a = Ok b.
Proof. destruct m as [a|e]; simpl; [eauto|discriminate]. Qed.

Lemma bind_Ok_l {A B} (a : A) (f : A -> result B) : Ok a ≫= f = f a.
Proof. reflexivity. Qed.

Lemma assert_Ok b e u : assert b e = Ok u -> b = true.
Proof. destruct b; [reflexivity|discriminate]. Qed.

(** The invariant rule of a loop that ends. *)
Lemma for_each_inv {St : Type} (P : nat -> St -> Prop) (body : St -> Z -> result St)
    (l : list Z) (s s' : St) :
  P 0%nat s ->
  (forall i x t t', l !! i = Some x -> P i t -> body t x = Ok t' -> P (S i) t') ->
  for_each body s l = Ok s' ->
  P (length l) s'.
Proof.
  revert P s. induction l as [|x l IH]; intros P s H0 Hstep Hrun; simpl in *.
  - congruence.
  - apply bind_Ok in Hrun as (t & Hb & Hrun).
    apply (IH (fun i => P (S i)) t); [|intros i y u u' Hl; apply (Hstep (S i)); exact Hl|exact Hrun].
    apply (Hstep 0%nat x s t); [reflexivity|exact H0|exact Hb].
Qed.

(** The invariant rule of a loop whose body cannot abort. *)
Lemma for_each_total {St : Type} (P : nat -> St -> Prop) (body : St -> Z -> result St)
    (l : list Z) (s : St) :
  P 0%nat s ->
  (forall i x t, l !! i = Some x -> P i t -> exists t', body t x = Ok t' /\ P (S i) t') ->
  exists s', for_each body s l = Ok s' /\ P (length l) s'.
Proof.
  revert P s. induction l as [|x l IH]; intros P s H0 Hstep; simpl.
  - eauto.
  - destruct (Hstep 0%nat x s eq_refl H0) as (t & Hb & Ht). rewrite Hb. simpl.
    apply (IH (fun i => P (S i)) t Ht).
    intros i y u Hl. apply (Hstep (S i)). exact Hl.
Qed.

(** ** Images *)

Lemma in_image_test img x y :
  (0 <=? x) && (x <? get_width img) && (0 <=? y) && (y <? get_height img) = true
  <-> in_image img x y.
Proof. unfold in_image. rewrite !andb_true_iff. lia. Qed.

Lemma get_pixel_inside img x y :
  wf_image img -> in_image img x y -> is_Some (get_pixel img x y).
Proof.
  intros (Hw & Hh & Hlen & Hrows) Hin. unfold get_pixel.
  rewrite (proj2 (in_image_test img x y) Hin).
  destruct Hin as [Hx Hy].
  destruct (lookup_lt_is_Some_2 (pixbuf img) (Z.to_nat y)) as [row Hrow]; [lia|].
  rewrite Hrow. simpl.
  apply lookup_lt_is_Some_2.
  rewrite (proj1 (Forall_lookup _ _) Hrows _ _ Hrow). lia.
Qed.

(** What an assignment to a pixel does. *)
Lemma set_pixel_spec x y c img :
  wf_image img -> in_image img x y ->
  exists img',
    set_pixel x y c img = Ok img' /\ wf_image img' /\
    get_width img' = get_width img /\ get_height img' = get_height img /\
    writes img' = (x, y) :: writes img /\
    forall x' y', get_pixel img' x' y' =
      if decide (x' = x /\ y' = y) then Some c else get_pixel img x' y'.
Proof.
  intros Hwf Hin. pose proof Hwf as (Hw & Hh & Hlen & Hrows).
  unfold set_pixel. rewrite (proj2 (in_image_test img x y) Hin).
  eexists. split; [reflexivity|]. split; [|split; [reflexivity|split; [reflexivity|split; [reflexivity|]]]].
  - split; [exact Hw|]. split; [exact Hh|]. simpl. split.
    + rewrite length_alter. exact Hlen.
    + apply Forall_lookup. intros i row Hi.
      rewrite list_lookup_alter in Hi. case_decide as Hd.
      * destruct (pixbuf img !! Z.to_nat y) as [r|] eqn:Hr; simpl in Hi; [|discriminate].
        injection Hi as <-. rewrite length_insert.
        exact (proj1 (Forall_lookup _ _) Hrows _ _ Hr).
      * exact (proj1 (Forall_lookup _ _) Hrows _ _ Hi).
  - intros x' y'. unfold get_pixel; simpl.
    destruct ((0 <=? x') && (x' <? get_width img) && (0 <=? y') && (y' <? get_height img)) eqn:E.
    + apply in_image_test in E. destruct E as [Hx' Hy']. destruct Hin as [Hx Hy].
      rewrite list_lookup_alter.
      destruct (decide (y' = y)) as [->|Hny].
      * rewrite decide_True by reflexivity.
        destruct (lookup_lt_is_Some_2 (pixbuf img) (Z.to_nat y)) as [row Hrow]; [lia|].
        rewrite Hrow. simpl.
        destruct (decide (x' = x)) as [->|Hnx].
        -- rewrite decide_True by auto.
           apply list_lookup_insert_eq.
           rewrite (proj1 (Forall_lookup _ _) Hrows _ _ Hrow). lia.
        -- rewrite decide_False by tauto.
           apply list_lookup_insert_ne. lia.
      * rewrite (decide_False (P := Z.to_nat y = Z.to_nat y')) by lia.
        rewrite decide_False by tauto. reflexivity.
    + rewrite decide_False; [reflexivity|].
      intros [-> ->]. apply in_image_test in Hin. congruence.
Qed.

(** [fill] assigns the colour to the rows [ys] of column [x], and to nothing
    else. *)
Lemma fill_spec x c img a len :
  wf_image img -> 0 <= x < get_width img -> 0 <= a -> a + len <= get_height img ->
  exists img',
    fill x c img (seqZ a len) = Ok img' /\ wf_image img' /\
    get_width img' = get_width img /\ get_height img' = get_height img /\
    writes img' = reverse ((fun y => (x, y)) <$> seqZ a len) ++ writes img /\
    forall x' y', get_pixel img' x' y' =
      if decide (x' = x /\ a <= y' < a + len) then Some c else get_pixel img x' y'.
Proof.
  intros Hwf Hx Ha Hlen. unfold fill.
  destruct (for_each_total
    (fun i img' =>
       wf_image img' /\
       get_width img' = get_width img /\ get_height img' = get_height img /\
       writes img' = reverse ((fun y => (x, y)) <$> take i (seqZ a len)) ++ writes img /\
       forall x' y', get_pixel img' x' y' =
         if decide (x' = x /\ a <= y' < a + Z.of_nat i) then Some c
         else get_pixel img x' y')
    (fun img y => set_pixel x y c img) (seqZ a len) img) as (img' & Hrun & HP).
  - split; [exact Hwf|]. split; [reflexivity|]. split; [reflexivity|].
    split; [reflexivity|]. intros x' y'. rewrite decide_False by lia. reflexivity.
  - intros i y t Hl (Hwt & Hwd & Hht & Hws & Hpx).
    apply lookup_seqZ in Hl as [-> Hi].
    destruct (set_pixel_spec x (a + Z.of_nat i) c t Hwt) as (t' & Hset & Hwt' & Hwd' & Hht' & Hws' & Hpx').
    { unfold in_image. lia. }
    exists t'. split; [exact Hset|]. split; [exact Hwt'|].
    split; [congruence|]. split; [congruence|]. split.
    + rewrite Hws', Hws.
      rewrite (take_S_r _ _ (a + Z.of_nat i)) by (apply lookup_seqZ; lia).
      rewrite fmap_app, reverse_app. reflexivity.
    + intros x' y'. rewrite Hpx', Hpx.
      repeat case_decide; try reflexivity; lia.
  - exists img'. split; [exact Hrun|].
    destruct HP as (Hwt & Hwd & Hht & Hws & Hpx).
    rewrite length_seqZ in Hws, Hpx.
    split; [exact Hwt|]. split; [exact Hwd|]. split; [exact Hht|]. split.
    + rewrite Hws. rewrite take_ge by (rewrite length_seqZ; lia). reflexivity.
    + intros x' y'. rewrite Hpx. repeat case_decide; try reflexivity; lia.
Qed.

(** [paint_column] assigns every row of column [x] once, top to bottom, and
    nothing else. *)
Lemma paint_column_spec bg fg x y1 y2 img :
  wf_image img -> 0 <= x < get_width img -> 0 <= y1 <= y2 -> y2 <= get_height img ->
  exists img',
    paint_column bg fg (get_height img) x (y1, y2) img = Ok img' /\ wf_image img' /\
    get_width img' = get_width img /\ get_height img' = get_height img /\
    writes img' = reverse ((fun y => (x, y)) <$> seqZ 0 (get_height img)) ++ writes img /\
    forall x' y', get_pixel img' x' y' =
      if decide (x' = x /\ 0 <= y' < get_height img)
      then Some (column_color bg fg (y1, y2) y')
      else get_pixel img x' y'.
Proof.
  intros Hwf Hx Hy1 Hy2. unfold paint_column.
  destruct (fill_spec x bg img 0 y1 Hwf Hx) as (i1 & E1 & Hwf1 & Hw1 & Hh1 & Hs1 & Hp1); [lia..|].
  rewrite E1. simpl.
  destruct (fill_spec x fg i1 y1 (y2 - y1) Hwf1) as (i2 & E2 & Hwf2 & Hw2 & Hh2 & Hs2 & Hp2); [lia..|].
  rewrite E2. simpl.
  destruct (fill_spec x bg i2 y2 (get_height img - y2) Hwf2) as (i3 & E3 & Hwf3 & Hw3 & Hh3 & Hs3 & Hp3); [lia..|].
  exists i3. split; [exact E3|]. split; [exact Hwf3|].
  split; [congruence|]. split; [congruence|]. split.
  - rewrite Hs3, Hs2, Hs1.
    replace (get_height img) with (y1 + ((y2 - y1) + (get_height img - y2))) at 2 by lia.
    rewrite !seqZ_app by lia. rewrite !fmap_app, !reverse_app, <- !app_assoc.
    replace (0 + y1) with y1 by lia. replace (y1 + (y2 - y1)) with y2 by lia.
    reflexivity.
  - intros x' y'. rewrite Hp3, Hp2, Hp1. unfold column_color. simpl.
    repeat case_decide; try reflexivity; lia.
Qed.

(** ** The scan for [min] and [max] *)

Lemma scan_loop_spec channels block (m : nat) :
  forall (j : Z) (mn mx : Z) (fuel : nat),
    1 <= channels -> 0 <= j ->
    (j + Z.of_nat m) * channels <= Z.of_nat (length block) ->
    (j + Z.of_nat m) * channels < 2 ^ 31 ->
    (m <= fuel)%nat ->
    scan_loop fuel channels ((j + Z.of_nat m) * channels) block (j * channels) mn mx
    = Ok (envelope mn mx (left_channel channels block j (Z.of_nat m))).
Proof.
  induction m as [|m IH]; intros j mn mx fuel Hc Hj Hlen Hint Hfuel.
  - replace (j + Z.of_nat 0) with j by lia.
    destruct fuel; simpl; rewrite Z.ltb_irrefl; reflexivity.
  - destruct fuel as [|fuel]; [lia|]. simpl scan_loop.
    assert (j * channels < (j + Z.of_nat (S m)) * channels) as Hlt by nia.
    rewrite (proj2 (Z.ltb_lt _ _) Hlt).
    assert ((0 <=? j * channels) && (j * channels + channels <? 2 ^ 31) = true) as ->.
    { apply andb_true_iff. split; [apply Z.leb_le; nia|apply Z.ltb_lt; nia]. }
    destruct (lookup_lt_is_Some_2 block (Z.to_nat (j * channels))) as [s Hs]; [nia|].
    rewrite Hs.
    replace (j * channels + channels) with ((j + 1) * channels) by lia.
    replace (j + Z.of_nat (S m)) with ((j + 1) + Z.of_nat m) by lia.
    rewrite IH by (try lia; nia).
    unfold left_channel, envelope.
    replace (j + 1 + Z.of_nat m) with (j + Z.of_nat (S m)) in * by lia.
    rewrite (seqZ_cons j (Z.of_nat (S m))) by lia. simpl.
    rewrite Hs. simpl.
    replace (Z.succ j) with (j + 1) by lia.
    replace (Z.pred (Z.of_nat (S m))) with (Z.of_nat m) by lia.
    reflexivity.
Qed.

(** The scan of the [got] frames that a read returned. *)
Lemma scan_spec channels got block :
  1 <= channels -> 0 <= got ->
  got * channels <= Z.of_nat (length block) -> got * channels < 2 ^ 31 ->
  scan channels (got * channels) block
  = Ok (envelope 0 0 (left_channel channels block 0 got)).
Proof.
  intros Hc Hg Hlen Hint. unfold scan.
  pose proof (scan_loop_spec channels block (Z.to_nat got) 0 0 0
                (Z.to_nat (got * channels)) Hc) as H.
  rewrite Z2Nat.id in H by lia. simpl in H. apply H; try lia. nia.
Qed.

Lemma envelope_range mn mx samples :
  Forall is_short samples -> - 2 ^ 15 <= mn <= 0 -> 0 <= mx < 2 ^ 15 ->
  - 2 ^ 15 <= (envelope mn mx samples).1 <= 0 /\
  0 <= (envelope mn mx samples).2 < 2 ^ 15.
Proof.
  intros Hs. revert mn mx. unfold envelope. simpl.
  induction Hs as [|s samples Hsh _ IH]; intros mn mx Hmn Hmx; simpl.
  - lia.
  - unfold is_short in Hsh. apply IH; lia.
Qed.

(** Seeded with 0, the scan keeps [min <= 0 <= max] whatever the samples. *)
Lemma scan_loop_sign fuel channels n block :
  forall i mn mx mn' mx',
    mn <= 0 <= mx ->
    scan_loop fuel channels n block i mn mx = Ok (mn', mx') ->
    mn' <= 0 <= mx'.
Proof.
  induction fuel as [|fuel IH]; intros i mn mx mn' mx' H0 Hrun; simpl in Hrun.
  - destruct (i <? n); [discriminate|]. injection Hrun as <- <-. exact H0.
  - destruct (i <? n); [|injection Hrun as <- <-; exact H0].
    destruct (_ && _); [|discriminate].
    destruct (block !! Z.to_nat i) as [s|]; [|discriminate].
    apply IH in Hrun; [exact Hrun|lia].
Qed.

Lemma envelope_zero samples :
  Forall (fun s => s = 0) samples -> envelope 0 0 samples = (0, 0).
Proof.
  unfold envelope. induction 1 as [|s samples -> _ IH]; simpl; [reflexivity|].
  exact IH.
Qed.

(** ** Silence *)

Lemma span_top_zero h : is_unsigned h -> span_top h 0 = h / 2.
Proof.
  intros Hh. rewrite span_top_eq by (assumption || lia).
  replace (- 0 * h) with 0 by lia.
  change (u32 0 / 2 ^ 15) with 0. rewrite Z.sub_0_r. reflexivity.
Qed.

Lemma span_bottom_zero h : is_unsigned h -> span_bottom h 0 = h / 2.
Proof.
  intros Hh. unfold span_bottom, is_unsigned in *. rewrite sample_scale_eq.
  change (u32 0) with 0. rewrite Z.mul_0_l.
  change (u32 0 / 2 ^ 15) with 0.
  rewrite Z.add_0_r, u32_small by lia.
  apply clamp_id. split; [apply Z.div_pos; lia|apply Z.div_le_upper_bound; lia].
Qed.

(** ** [compute_spans] *)

Lemma compute_spans_inv h channels n block y1 y2 :
  compute_spans h channels n block = Ok (y1, y2) ->
  exists mn mx,
    scan channels n block = Ok (mn, mx) /\ mn <= 0 <= mx /\
    y1 = span_top h mn /\ y2 = span_bottom h mx /\
    0 <= y1 <= h / 2 /\ h / 2 <= y2 <= h.
Proof.
  unfold compute_spans. intros H.
  apply bind_Ok in H as (u1 & _ & H).
  apply bind_Ok in H as ([mn mx] & Hscan & H).
  apply bind_Ok in H as (u2 & Ha1 & H).
  apply bind_Ok in H as (u3 & Ha2 & H).
  injection H as <- <-.
  apply assert_Ok, andb_true_iff in Ha1 as [Ha1 Ha1'].
  apply assert_Ok, andb_true_iff in Ha2 as [Ha2 Ha2'].
  exists mn, mx. split; [exact Hscan|]. split.
  - unfold scan in Hscan. eapply scan_loop_sign; [|exact Hscan]. lia.
  - repeat split; lia.
Qed.

Lemma compute_spans_ordered h channels n block y1 y2 :
  0 <= h -> compute_spans h channels n block = Ok (y1, y2) ->
  0 <= y1 <= y2 /\ y2 <= h.
Proof.
  intros Hh H. apply compute_spans_inv in H as (mn & mx & _ & _ & _ & _ & H1 & H2).
  lia.
Qed.

(** The assertions pass on every column of an image of at most
    [2^32 - 2^17] rows. *)
Lemma compute_spans_total h channels got block :
  0 <= h -> h + 2 ^ 17 <= 2 ^ 32 ->
  1 <= channels -> 0 <= got ->
  got * channels <= Z.of_nat (length block) -> got * channels < 2 ^ 31 ->
  Forall is_short block ->
  exists mn mx,
    envelope 0 0 (left_channel channels block 0 got) = (mn, mx) /\
    compute_spans h channels (got * channels) block
    = Ok (span_top h mn, span_bottom h mx).
Proof.
  intros Hh Hb Hc Hg Hlen Hint Hshort.
  destruct (envelope 0 0 (left_channel channels block 0 got)) as [mn mx] eqn:E.
  exists mn, mx. split; [reflexivity|].
  assert (- 2 ^ 15 <= mn <= 0 /\ 0 <= mx < 2 ^ 15) as [Hmn Hmx].
  { pose proof (envelope_range 0 0 (left_channel channels block 0 got)) as H.
    rewrite E in H. simpl in H. apply H; [|lia..].
    unfold left_channel. apply Forall_fmap, Forall_forall. intros j _. simpl.
    destruct (block !! Z.to_nat (j * channels)) as [s|] eqn:Hs; simpl.
    - exact (proj1 (Forall_lookup _ _) Hshort _ _ Hs).
    - unfold is_short. lia. }
  unfold compute_spans.
  rewrite (proj2 (Z.leb_le _ _) Hlen). simpl.
  rewrite scan_spec by assumption. rewrite E. simpl.
  assert (is_unsigned h) as Hu by (unfold is_unsigned; lia).
  pose proof (span_top_le_half h mn Hu Hmn) as H1.
  pose proof (span_bottom_range h mx Hu) as H2.
  pose proof (span_bottom_ge_half h mx Hh Hb Hmx) as H3.
  assert ((0 <=? span_top h mn) && (span_top h mn <=? h / 2) = true) as ->
    by (apply andb_true_iff; split; apply Z.leb_le; lia).
  simpl.
  assert ((h / 2 <=? span_bottom h mx) && (span_bottom h mx <=? h) = true) as ->
    by (apply andb_true_iff; split; apply Z.leb_le; lia).
  reflexivity.
Qed.

(** ** The loop over the columns *)

Lemma column_major_S (k : nat) h :
  column_major (Z.of_nat (S k)) h
  = column_major (Z.of_nat k) h ++ ((fun y => (Z.of_nat k, y)) <$> seqZ 0 h).
Proof.
  unfold column_major. rewrite seqZ_S, bind_app. simpl.
  rewrite app_nil_r. reflexivity.
Qed.

Lemma reads_S wav block fpp k got block' wav' :
  column_read wav block fpp k = (got, block', wav') ->
  reads wav block fpp (S k) = (wav', block').
Proof.
  unfold column_read. cbn [reads]. destruct (reads wav block fpp k) as [w b].
  intros ->. reflexivity.
Qed.

Section ColumnLoop.

(** The loop starts from the source [wav0], the buffer [block0] and the
    image [img0], and asks for [fpp] frames a column. *)
Context (bg fg : rgba_pixel) (fpp : Z).
Context (wav0 : SndfileHandle) (block0 : list Z) (img0 : image).

Local Abbreviation done := (columns_done bg fg fpp wav0 block0 img0).
Local Abbreviation body := (render_column bg fg (get_height img0) fpp).
Local Abbreviation span_of := (column_span (get_height img0) fpp wav0 block0).

Lemma columns_done_0 : wf_image img0 -> done 0%nat (wav0, block0, img0).
Proof.
  intros Hwf. unfold columns_done; simpl.
  split; [reflexivity|]. split; [exact Hwf|]. split; [reflexivity|].
  split; [reflexivity|]. split; [reflexivity|]. split; [lia|]. reflexivity.
Qed.

(** One more column: if its span is computed, the column is painted. *)
Lemma columns_done_S k st span :
  Z.of_nat k < get_width img0 ->
  done k st -> span_of k = Ok span ->
  exists st', body st (Z.of_nat k) = Ok st' /\ done (S k) st'.
Proof.
  intros Hk (Hrd & Hwf & Hw & Hh & Hws & Hcols & Hrest) Hspan.
  destruct st as [[wav block] img]. cbn [fst snd] in *.
  unfold column_span in Hspan.
  destruct (column_read wav0 block0 fpp k) as [[got block'] wav'] eqn:Hread.
  pose proof (reads_S _ _ _ _ _ _ _ Hread) as HS.
  unfold column_read in Hread. rewrite <- Hrd in Hread.
  unfold render_column. rewrite Hread, Hspan. simpl.
  destruct span as [y1 y2].
  pose proof Hwf as (_ & Hhu & _).
  assert (0 <= get_height img0) as Hh0 by (unfold is_unsigned in Hhu; lia).
  destruct (compute_spans_ordered _ _ _ _ _ _ Hh0 Hspan) as [Hy1 Hy2].
  destruct (paint_column_spec bg fg (Z.of_nat k) y1 y2 img Hwf)
    as (img' & Hpaint & Hwf' & Hw' & Hh' & Hws' & Hpx'); [lia..|].
  rewrite Hh in Hpaint, Hws', Hpx'. rewrite Hpaint. simpl.
  eexists. split; [reflexivity|]. unfold columns_done; simpl.
  split; [symmetry; exact HS|]. split; [exact Hwf'|].
  split; [congruence|]. split; [congruence|]. split; [|split].
  - rewrite Hws', Hws, column_major_S, reverse_app, app_assoc. reflexivity.
  - intros i Hi. destruct (decide (i = k)) as [->|Hne].
    + exists (y1, y2). split.
      * unfold column_span, column_read. rewrite <- Hrd, Hread. exact Hspan.
      * simpl. split; [lia|]. split; [lia|]. intros y Hy.
        rewrite Hpx', decide_True by lia. reflexivity.
    + assert (i < k)%nat as Hik by lia.
      destruct (Hcols i Hik) as (sp & Hsp & Ho1 & Ho2 & Hpx).
      exists sp. split; [exact Hsp|]. split; [exact Ho1|]. split; [exact Ho2|].
      intros y Hy. rewrite Hpx', decide_False by lia. apply Hpx, Hy.
  - intros x y Hx. rewrite Hpx', decide_False by lia. apply Hrest. lia.
Qed.

(** A column that is rendered has computed its span. *)
Lemma render_column_inv k st st' :
  done k st -> body st (Z.of_nat k) = Ok st' -> exists span, span_of k = Ok span.
Proof.
  intros (Hrd & _) Hrun. destruct st as [[wav block] img]. cbn [fst snd] in *.
  unfold column_span, column_read. rewrite <- Hrd.
  unfold render_column in Hrun.
  destruct (readf wav block fpp) as [[got block'] wav'].
  apply bind_Ok in Hrun as (span & Hspan & _). eauto.
Qed.

Hypothesis wf_img0 : wf_image img0.

Lemma render_columns_inv st' :
  for_each body (wav0, block0, img0) (seqZ 0 (get_width img0)) = Ok st' ->
  done (Z.to_nat (get_width img0)) st'.
Proof.
  intros Hrun. rewrite <- (length_seqZ 0 (get_width img0)).
  refine (for_each_inv done _ _ _ _ (columns_done_0 wf_img0) _ Hrun).
  intros i x t t' Hl Hdone Hbody.
  apply lookup_seqZ in Hl as [-> Hi]. rewrite Z.add_0_l in Hbody.
  destruct (render_column_inv _ _ _ Hdone Hbody) as (span & Hspan).
  destruct (columns_done_S _ _ _ Hi Hdone Hspan) as (t'' & Hb' & Hdone').
  rewrite Hbody in Hb'. injection Hb' as <-. exact Hdone'.
Qed.

Lemma render_columns_total :
  (forall k, Z.of_nat k < get_width img0 -> exists span, span_of k = Ok span) ->
  exists st',
    for_each body (wav0, block0, img0) (seqZ 0 (get_width img0)) = Ok st' /\
    done (Z.to_nat (get_width img0)) st'.
Proof.
  intros Hspans. rewrite <- (length_seqZ 0 (get_width img0)).
  apply (for_each_total done); [apply columns_done_0, wf_img0|].
  intros i x t Hl Hdone. apply lookup_seqZ in Hl as [-> Hi]. rewrite Z.add_0_l.
  destruct (Hspans i Hi) as (span & Hspan).
  exact (columns_done_S _ _ _ Hi Hdone Hspan).
Qed.

End ColumnLoop.

(** ** [render] *)

Lemma render_inv bg fg wav img img' :
  wf_image img ->
  render wav img (get_height img) bg fg = Ok img' ->
  0 < get_width img /\ rendered bg fg wav img img'.
Proof.
  intros Hwf Hrun. unfold render in Hrun.
  apply bind_Ok in Hrun as (u & Hw & Hrun). apply assert_Ok, Z.ltb_lt in Hw.
  apply bind_Ok in Hrun as (spp & Hspp & Hrun).
  apply bind_Ok in Hrun as ([[wav' block'] img''] & Hloop & Hrun).
  injection Hrun as <-.
  apply render_columns_inv in Hloop; [|exact Hwf].
  destruct Hloop as (_ & Hwf' & Hw' & Hh' & Hws & Hcols & _). cbn [fst snd] in *.
  split; [exact Hw|]. unfold rendered.
  split; [exact Hwf'|]. split; [exact Hw'|]. split; [exact Hh'|]. split.
  - rewrite Hws, Z2Nat.id by lia. reflexivity.
  - intros x Hx. destruct (Hcols (Z.to_nat x) ltac:(lia)) as (span & Hspan & H1 & H2 & Hpx).
    exists span. split.
    + unfold rendered_span. rewrite Hspp. exact Hspan.
    + rewrite Z2Nat.id in Hpx by lia. auto.
Qed.

Lemma render_total bg fg wav img :
  wf_image img -> 0 < get_width img ->
  (forall x, 0 <= x < get_width img ->
     exists span, rendered_span wav (get_width img) (get_height img) x = Ok span) ->
  exists img', render wav img (get_height img) bg fg = Ok img'.
Proof.
  intros Hwf Hw Hspans. unfold render.
  rewrite (proj2 (Z.ltb_lt _ _) Hw). simpl.
  destruct (Hspans 0 ltac:(lia)) as (sp0 & Hsp0). unfold rendered_span in Hsp0.
  apply bind_Ok in Hsp0 as (spp & Hspp & _). rewrite Hspp. simpl.
  destruct (render_columns_total bg fg
              (frames_per_pixel (sf_frames wav) (get_width img)) wav
              (replicate (Z.to_nat spp) 0) img Hwf) as ([[wav' block'] img'] & Hrun & _).
  - intros k Hk. destruct (Hspans (Z.of_nat k) ltac:(lia)) as (span & Hspan).
    unfold rendered_span in Hspan. rewrite Hspp, Nat2Z.id in Hspan. simpl in Hspan.
    eauto.
  - rewrite Hrun. simpl. eauto.
Qed.

(** ** The loops that scale up *)

Lemma row_major_S w (k : nat) :
  row_major w (Z.of_nat (S k))
  = row_major w (Z.of_nat k) ++ ((fun x => (x, Z.of_nat k)) <$> seqZ 0 w).
Proof.
  unfold row_major. rewrite seqZ_S, bind_app. simpl.
  rewrite app_nil_r. reflexivity.
Qed.

Lemma upscale_index x sw w :
  0 <= x < w -> 0 < sw < 2 ^ 32 -> w < 2 ^ 32 ->
  u64 (x * sw) / w = x * sw / w /\ 0 <= x * sw / w < sw.
Proof.
  intros Hx Hsw Hw. unfold u64. rewrite Z.mod_small by nia. split; [reflexivity|].
  split; [apply Z.div_pos; nia|apply Z.div_lt_upper_bound; nia].
Qed.

Lemma upscale_row_spec small out y :
  wf_image small -> wf_image out ->
  get_height small = get_height out ->
  0 < get_width small <= get_width out ->
  0 <= y < get_height out ->
  exists out',
    for_each (upscale_pixel small y) out (seqZ 0 (get_width out)) = Ok out' /\
    wf_image out' /\
    get_width out' = get_width out /\ get_height out' = get_height out /\
    writes out' = reverse ((fun x => (x, y)) <$> seqZ 0 (get_width out)) ++ writes out /\
    forall x' y', get_pixel out' x' y' =
      if decide (y' = y /\ 0 <= x' < get_width out)
      then get_pixel small (x' * get_width small / get_width out) y
      else get_pixel out x' y'.
Proof.
  intros Hwfs Hwfo Hh Hw Hy.
  pose proof Hwfs as (Hsu & _). pose proof Hwfo as (Hou & _).
  unfold is_unsigned in Hsu, Hou.
  destruct (for_each_total
    (fun i t =>
       wf_image t /\
       get_width t = get_width out /\ get_height t = get_height out /\
       writes t = reverse ((fun x => (x, y)) <$> take i (seqZ 0 (get_width out))) ++ writes out /\
       forall x' y', get_pixel t x' y' =
         if decide (y' = y /\ 0 <= x' < Z.of_nat i)
         then get_pixel small (x' * get_width small / get_width out) y
         else get_pixel out x' y')
    (upscale_pixel small y) (seqZ 0 (get_width out)) out) as (out' & Hrun & HP).
  - split; [exact Hwfo|]. split; [reflexivity|]. split; [reflexivity|].
    split; [reflexivity|]. intros x' y'. rewrite decide_False by lia. reflexivity.
  - intros i x t Hl (Hwt & Hwd & Hht & Hws & Hpx).
    apply lookup_seqZ in Hl as [-> Hi]. rewrite Z.add_0_l.
    unfold upscale_pixel. rewrite Hwd.
    destruct (upscale_index (Z.of_nat i) (get_width small) (get_width out))
      as [-> Hxx]; [lia..|].
    rewrite (proj2 (Z.ltb_lt _ _)) by lia. simpl.
    destruct (get_pixel_inside small (Z.of_nat i * get_width small / get_width out) y Hwfs)
      as [p Hp]; [unfold in_image; lia|].
    rewrite Hp.
    destruct (set_pixel_spec (Z.of_nat i) y p t Hwt)
      as (t' & Hset & Hwt' & Hwd' & Hht' & Hws' & Hpx'); [unfold in_image; lia|].
    exists t'. split; [exact Hset|]. split; [exact Hwt'|].
    split; [congruence|]. split; [congruence|]. split.
    + rewrite Hws', Hws.
      rewrite (take_S_r _ _ (Z.of_nat i)) by (apply lookup_seqZ; lia).
      rewrite fmap_app, reverse_app. reflexivity.
    + intros x' y'. rewrite Hpx', Hpx.
      destruct (decide (x' = Z.of_nat i /\ y' = y)) as [[-> ->]|Hne].
      * rewrite decide_True by lia. symmetry. exact Hp.
      * repeat case_decide; try reflexivity; lia.
  - exists out'. split; [exact Hrun|].
    destruct HP as (Hwt & Hwd & Hht & Hws & Hpx).
    rewrite length_seqZ in Hws, Hpx.
    split; [exact Hwt|]. split; [exact Hwd|]. split; [exact Hht|]. split.
    + rewrite Hws. rewrite take_ge by (rewrite length_seqZ; lia). reflexivity.
    + intros x' y'. rewrite Hpx. repeat case_decide; try reflexivity; lia.
Qed.

Lemma upscale_spec small out :
  wf_image small -> wf_image out ->
  get_height small = get_height out ->
  0 < get_width small <= get_width out ->
  exists out', upscale small out = Ok out' /\ upscaled small out out'.
Proof.
  intros Hwfs Hwfo Hh Hw.
  pose proof Hwfs as (Hsu & _). pose proof Hwfo as (Hou & Hhu & _).
  unfold is_unsigned in Hsu, Hou, Hhu. unfold upscale.
  destruct (for_each_total
    (fun j t =>
       wf_image t /\
       get_width t = get_width out /\ get_height t = get_height out /\
       writes t = reverse (row_major (get_width out) (Z.of_nat j)) ++ writes out /\
       forall x' y', get_pixel t x' y' =
         if decide (0 <= y' < Z.of_nat j /\ 0 <= x' < get_width out)
         then get_pixel small (x' * get_width small / get_width out) y'
         else get_pixel out x' y')
    (fun out y => for_each (upscale_pixel small y) out (seqZ 0 (get_width out)))
    (seqZ 0 (get_height out)) out) as (out' & Hrun & HP).
  - split; [exact Hwfo|]. split; [reflexivity|]. split; [reflexivity|].
    split; [reflexivity|]. intros x' y'. rewrite decide_False by lia. reflexivity.
  - intros j y t Hl (Hwt & Hwd & Hht & Hws & Hpx).
    apply lookup_seqZ in Hl as [-> Hj]. rewrite Z.add_0_l.
    destruct (upscale_row_spec small t (Z.of_nat j) Hwfs Hwt)
      as (t' & Hrow & Hwt' & Hwd' & Hht' & Hws' & Hpx'); [lia..|].
    exists t'. split; [exact Hrow|]. split; [exact Hwt'|].
    split; [congruence|]. split; [congruence|]. split.
    + rewrite Hws', Hws, Hwd, row_major_S, reverse_app, app_assoc. reflexivity.
    + intros x' y'. rewrite Hpx', Hpx, Hwd.
      destruct (decide (y' = Z.of_nat j /\ 0 <= x' < get_width out)) as [[-> Hx]|Hne].
      * rewrite decide_True by lia. reflexivity.
      * repeat case_decide; try reflexivity; lia.
  - exists out'. split; [exact Hrun|].
    destruct HP as (Hwt & Hwd & Hht & Hws & Hpx).
    rewrite length_seqZ, Z2Nat.id in Hws, Hpx by lia.
    unfold upscaled.
    split; [exact Hwt|]. split; [exact Hwd|]. split; [exact Hht|].
    split; [exact Hws|]. intros x y Hx Hy. split.
    + apply upscale_index; lia.
    + rewrite Hpx, decide_True by lia. reflexivity.
Qed.

(** ** Every pixel once *)

Lemma elem_of_column_major w h x y :
  (x, y) ∈ column_major w h <-> 0 <= x < w /\ 0 <= y < h.
Proof.
  unfold column_major. rewrite list_elem_of_bind. split.
  - intros (x' & Hy & Hx). apply list_elem_of_fmap in Hy as (y' & Heq & Hy).
    injection Heq as -> ->. apply elem_of_seqZ in Hx, Hy. lia.
  - intros [Hx Hy]. exists x. split.
    + apply list_elem_of_fmap. exists y. split; [reflexivity|apply elem_of_seqZ; lia].
    + apply elem_of_seqZ. lia.
Qed.

Lemma NoDup_column_major w h : NoDup (column_major w h).
Proof.
  unfold column_major. apply NoDup_bind.
  - intros x1 x2 [x y] _ _ H1 H2.
    apply list_elem_of_fmap in H1 as (y1 & E1 & _).
    apply list_elem_of_fmap in H2 as (y2 & E2 & _). congruence.
  - intros x _. apply NoDup_fmap_2; [|apply NoDup_seqZ].
    intros y1 y2 E. congruence.
  - apply NoDup_seqZ.
Qed.

Lemma elem_of_row_major w h x y :
  (x, y) ∈ row_major w h <-> 0 <= x < w /\ 0 <= y < h.
Proof.
  unfold row_major. rewrite list_elem_of_bind. split.
  - intros (y' & Hx & Hy). apply list_elem_of_fmap in Hx as (x' & Heq & Hx).
    injection Heq as -> ->. apply elem_of_seqZ in Hx, Hy. lia.
  - intros [Hx Hy]. exists y. split.
    + apply list_elem_of_fmap. exists x. split; [reflexivity|apply elem_of_seqZ; lia].
    + apply elem_of_seqZ. lia.
Qed.

Lemma NoDup_row_major w h : NoDup (row_major w h).
Proof.
  unfold row_major. apply NoDup_bind.
  - intros y1 y2 [x y] _ _ H1 H2.
    apply list_elem_of_fmap in H1 as (x1 & E1 & _).
    apply list_elem_of_fmap in H2 as (x2 & E2 & _). congruence.
  - intros y _. apply NoDup_fmap_2; [|apply NoDup_seqZ].
    intros x1 x2 E. congruence.
  - apply NoDup_seqZ.
Qed.

Lemma NoDup_reverse_2 {A} (l : list A) : NoDup l -> NoDup (reverse l).
Proof. intros H. rewrite reverse_Permutation. exact H. Qed.

(** Two well-formed images of one size with the same pixels have the same
    rows. *)
Lemma pixbuf_ext a b :
  wf_image a -> wf_image b ->
  get_width a = get_width b -> get_height a = get_height b ->
  (forall x y, in_image a x y -> get_pixel a x y = get_pixel b x y) ->
  pixbuf a = pixbuf b.
Proof.
  intros (Hwa & Hha & Hla & Hra) (Hwb & Hhb & Hlb & Hrb) Hw Hh Hpx.
  unfold is_unsigned in *.
  apply (list_eq_same_length _ _ (Z.to_nat (get_height a))); [congruence|exact Hla|].
  intros i ra rb Hi Ha Hb.
  pose proof (proj1 (Forall_lookup _ _) Hra _ _ Ha) as Hlra.
  pose proof (proj1 (Forall_lookup _ _) Hrb _ _ Hb) as Hlrb.
  apply (list_eq_same_length _ _ (Z.to_nat (get_width a))); [congruence|exact Hlra|].
  intros j pa pb Hj Hpa Hpb.
  specialize (Hpx (Z.of_nat j) (Z.of_nat i)).
  unfold get_pixel in Hpx. rewrite <- Hw, <- Hh in Hpx.
  assert ((0 <=? Z.of_nat j) && (Z.of_nat j <? get_width a) && (0 <=? Z.of_nat i)
          && (Z.of_nat i <? get_height a) = true) as Ht
    by (apply in_image_test; unfold in_image; lia).
  rewrite Ht, !Nat2Z.id, Ha, Hb in Hpx. simpl in Hpx.
  rewrite Hpa, Hpb in Hpx. injection Hpx; [auto|]. unfold in_image. lia.
Qed.

(** ** Reading the source *)

Lemma readf_spec wav block frames got block' wav' :
  1 <= sf_channels wav -> 0 <= frames ->
  readf wav block frames = (got, block', wav') ->
  let n := Z.to_nat (got * sf_channels wav) in
  got = Z.min frames (Z.of_nat (length (sf_unread wav)) / sf_channels wav) /\
  0 <= got <= frames /\
  got * sf_channels wav <= Z.of_nat (length (sf_unread wav)) /\
  block' = take n (sf_unread wav) ++ drop n block /\
  sf_channels wav' = sf_channels wav /\ sf_frames wav' = sf_frames wav /\
  sf_unread wav' = drop n (sf_unread wav).
Proof.
  intros Hc Hf Hread. unfold readf in Hread.
  set (left := Z.of_nat (length (sf_unread wav)) / sf_channels wav) in *.
  assert (0 <= left) as Hleft by (apply Z.div_pos; lia).
  assert (left * sf_channels wav <= Z.of_nat (length (sf_unread wav))) as Hmul
    by (unfold left; rewrite Z.mul_comm; apply Z.mul_div_le; lia).
  replace (Z.max 0 (Z.min frames left)) with (Z.min frames left) in Hread by lia.
  injection Hread as <- <- <-. simpl.
  repeat split; try lia; nia.
Qed.

Lemma readf_length wav block frames got block' wav' :
  1 <= sf_channels wav -> 0 <= frames ->
  frames * sf_channels wav <= Z.of_nat (length block) ->
  readf wav block frames = (got, block', wav') ->
  length block' = length block.
Proof.
  intros Hc Hf Hlen Hread.
  destruct (readf_spec _ _ _ _ _ _ Hc Hf Hread) as (_ & Hg & Hn & -> & _).
  rewrite length_app, length_take, length_drop. nia.
Qed.

(** A column that reads only zeros in channel 0, or nothing at all, has the
    span [(h/2, h/2)]. *)
Lemma compute_spans_silent h channels got block :
  is_unsigned h -> 1 <= channels -> 0 <= got ->
  got * channels <= Z.of_nat (length block) -> got * channels < 2 ^ 31 ->
  Forall (fun s => s = 0) (left_channel channels block 0 got) ->
  compute_spans h channels (got * channels) block = Ok (h / 2, h / 2).
Proof.
  intros Hh Hc Hg Hlen Hint Hzero. unfold compute_spans.
  rewrite (proj2 (Z.leb_le _ _) Hlen). simpl.
  rewrite scan_spec by assumption. rewrite envelope_zero by assumption. simpl.
  rewrite span_top_zero, span_bottom_zero by assumption.
  assert (0 <= h / 2 <= h) as Hhalf.
  { unfold is_unsigned in Hh. split; [apply Z.div_pos; lia|apply Z.div_le_upper_bound; lia]. }
  assert ((0 <=? h / 2) && (h / 2 <=? h / 2) = true) as ->
    by (apply andb_true_iff; split; apply Z.leb_le; lia).
  simpl.
  assert ((h / 2 <=? h / 2) && (h / 2 <=? h) = true) as ->
    by (apply andb_true_iff; split; apply Z.leb_le; lia).
  reflexivity.
Qed.

(** With the samples of the source in the range of [short], so are the
    scanned [min] and [max]. *)
Lemma scan_loop_range fuel channels n block :
  Forall is_short block ->
  forall i mn mx mn' mx',
    - 2 ^ 15 <= mn <= 0 -> 0 <= mx < 2 ^ 15 ->
    scan_loop fuel channels n block i mn mx = Ok (mn', mx') ->
    - 2 ^ 15 <= mn' <= 0 /\ 0 <= mx' < 2 ^ 15.
Proof.
  intros Hshort.
  induction fuel as [|fuel IH]; intros i mn mx mn' mx' Hmn Hmx Hrun; simpl in Hrun.
  - destruct (i <? n); [discriminate|]. injection Hrun as <- <-. lia.
  - destruct (i <? n); [|injection Hrun as <- <-; lia].
    destruct (_ && _); [|discriminate].
    destruct (block !! Z.to_nat i) as [s|] eqn:Hs; [|discriminate].
    pose proof (proj1 (Forall_lookup _ _) Hshort _ _ Hs) as Hsh.
    unfold is_short in Hsh.
    apply IH in Hrun; [exact Hrun|lia..].
Qed.

(** ** [compute_waveform] *)

Lemma wf_new_image w h : is_unsigned w -> is_unsigned h -> wf_image (new_image w h).
Proof.
  intros Hw Hh. unfold wf_image, new_image; simpl.
  split; [exact Hw|]. split; [exact Hh|]. split.
  - apply length_replicate.
  - apply Forall_replicate, length_replicate.
Qed.

Lemma render_width_max frames width :
  frames < width -> render_width frames width = Z.max frames 1.
Proof.
  intros H. unfold render_width, not_enough_samples.
  rewrite (proj2 (Z.ltb_lt _ _) H). destruct (0 <? frames) eqn:E.
  - apply Z.ltb_lt in E. lia.
  - apply Z.ltb_ge in E. lia.
Qed.

Lemma render_width_direct frames width :
  width <= frames -> render_width frames width = width.
Proof.
  intros H. unfold render_width, not_enough_samples.
  rewrite (proj2 (Z.ltb_ge _ _) H). reflexivity.
Qed.

Lemma compute_waveform_unfold wav out bg fg :
  compute_waveform wav out bg fg =
  if not_enough_samples (sf_frames wav) (get_width out)
  then small ← render wav (drawn_image wav out) (get_height out) bg fg;
       upscale small out
  else render wav (drawn_image wav out) (get_height out) bg fg.
Proof.
  unfold compute_waveform, drawn_image.
  destruct (not_enough_samples _ _); reflexivity.
Qed.

Lemma wf_drawn_image wav out :
  0 <= sf_frames wav -> wf_image out ->
  wf_image (drawn_image wav out) /\
  get_height (drawn_image wav out) = get_height out /\
  get_width (drawn_image wav out) = render_width (sf_frames wav) (get_width out) /\
  0 < get_width (drawn_image wav out) <= get_width out \/
  (wf_image (drawn_image wav out) /\
   get_height (drawn_image wav out) = get_height out /\
   get_width (drawn_image wav out) = render_width (sf_frames wav) (get_width out) /\
   drawn_image wav out = out /\ get_width out = 0).
Proof.
  intros Hf Hwf. pose proof Hwf as (Hw & Hh & _).
  unfold drawn_image, render_width, not_enough_samples, is_unsigned in *.
  destruct (sf_frames wav <? get_width out) eqn:E.
  - apply Z.ltb_lt in E. left.
    split; [apply wf_new_image; unfold is_unsigned; destruct (0 <? sf_frames wav); lia|].
    simpl. split; [reflexivity|]. split; [reflexivity|].
    destruct (0 <? sf_frames wav) eqn:E'; [apply Z.ltb_lt in E'|]; lia.
  - apply Z.ltb_ge in E.
    destruct (decide (get_width out = 0)) as [H0|H0].
    + right. auto.
    + left. split; [exact Hwf|]. split; [reflexivity|]. split; [reflexivity|]. lia.
Qed.

(** What a run that ends has done. *)
Lemma compute_waveform_inv wav out bg fg final :
  0 <= sf_frames wav -> wf_image out ->
  compute_waveform wav out bg fg = Ok final ->
  exists drawn,
    render wav (drawn_image wav out) (get_height out) bg fg = Ok drawn /\
    0 < get_width (drawn_image wav out) <= get_width out /\
    rendered bg fg wav (drawn_image wav out) drawn /\
    if not_enough_samples (sf_frames wav) (get_width out)
    then upscaled drawn out final
    else final = drawn.
Proof.
  intros Hf Hwf Hrun. rewrite compute_waveform_unfold in Hrun.
  assert (exists drawn,
            render wav (drawn_image wav out) (get_height out) bg fg = Ok drawn /\
            if not_enough_samples (sf_frames wav) (get_width out)
            then upscale drawn out = Ok final else final = drawn)
    as (drawn & Hrender & Hrest).
  { destruct (not_enough_samples _ _).
    - apply bind_Ok in Hrun as (small & H1 & H2). eauto.
    - eauto. }
  exists drawn. split; [exact Hrender|].
  destruct (wf_drawn_image wav out Hf Hwf)
    as [(Hwfd & Hhd & Hwd & Hpos)|(Hwfd & Hhd & Hwd & _ & H0)].
  - rewrite <- Hhd in Hrender. apply render_inv in Hrender as [_ Hr]; [|exact Hwfd].
    split; [exact Hpos|]. split; [exact Hr|].
    destruct (not_enough_samples _ _); [|exact Hrest].
    destruct Hr as (Hwf' & Hw' & Hh' & _).
    destruct (upscale_spec drawn out Hwf' Hwf) as (out' & Hup & Hspec); [congruence|lia|].
    congruence.
  - rewrite <- Hhd in Hrender. apply render_inv in Hrender as [Hpos _]; [|exact Hwfd].
    unfold render_width, not_enough_samples in *.
    destruct (sf_frames wav <? get_width out) eqn:E; [apply Z.ltb_lt in E|]; lia.
Qed.

(** A run in which every column computes its span ends. *)
Lemma compute_waveform_total wav out bg fg :
  0 <= sf_frames wav -> wf_image out -> 0 < get_width out ->
  (forall x, 0 <= x < render_width (sf_frames wav) (get_width out) ->
     exists span,
       rendered_span wav (render_width (sf_frames wav) (get_width out))
         (get_height out) x = Ok span) ->
  exists final, compute_waveform wav out bg fg = Ok final.
Proof.
  intros Hf Hwf Hw Hspans. rewrite compute_waveform_unfold.
  destruct (wf_drawn_image wav out Hf Hwf)
    as [(Hwfd & Hhd & Hwd & Hpos)|(_ & _ & _ & _ & H0)]; [|lia].
  destruct (render_total bg fg wav (drawn_image wav out) Hwfd) as (drawn & Hrender);
    [lia|rewrite Hhd, Hwd; exact Hspans|].
  rewrite Hhd in Hrender. rewrite Hrender.
  destruct (not_enough_samples _ _); [|eauto]. simpl.
  rewrite <- Hhd in Hrender. apply render_inv in Hrender as [_ Hr]; [|exact Hwfd].
  destruct Hr as (Hwf' & Hw' & Hh' & _).
  destruct (upscale_spec drawn out Hwf' Hwf) as (out' & Hup & _); [congruence|lia|].
  eauto.
Qed.

(** ** The frames that each column reads *)

Lemma reads_unread wav block fpp (k : nat) :
  1 <= sf_channels wav -> 1 <= fpp ->
  Z.of_nat k * fpp * sf_channels wav <= Z.of_nat (length (sf_unread wav)) ->
  fpp * sf_channels wav <= Z.of_nat (length block) ->
  sf_unread (reads wav block fpp k).1
  = drop (Z.to_nat (Z.of_nat k * fpp * sf_channels wav)) (sf_unread wav) /\
  sf_channels (reads wav block fpp k).1 = sf_channels wav /\
  sf_frames (reads wav block fpp k).1 = sf_frames wav /\
  length (reads wav block fpp k).2 = length block.
Proof.
  intros Hc Hf. induction k as [|k IH]; intros Hk Hb.
  - simpl. rewrite drop_0. auto.
  - destruct IH as (Hu & Hch & Hfr & Hl); [nia|exact Hb|].
    cbn [reads]. destruct (reads wav block fpp k) as [w b]. cbn [fst snd] in *.
    destruct (readf w b fpp) as [[got b'] w'] eqn:Hread. cbn [fst snd].
    pose proof (readf_length w b fpp got b' w' ltac:(lia) ltac:(lia) ltac:(rewrite Hch; lia) Hread) as Hl'.
    destruct (readf_spec w b fpp got b' w' ltac:(lia) ltac:(lia) Hread)
      as (Hgot & _ & _ & _ & Hch' & Hfr' & Hu').
    rewrite Hch in *.
    assert (Z.of_nat (length (sf_unread w))
            = Z.of_nat (length (sf_unread wav)) - Z.of_nat k * fpp * sf_channels wav) as Hlen.
    { rewrite Hu, length_drop. nia. }
    assert (fpp <= Z.of_nat (length (sf_unread w)) / sf_channels wav) as Hq.
    { apply Z.div_le_lower_bound; [lia|]. rewrite Hlen. nia. }
    assert (got = fpp) as -> by lia.
    split; [|split; [congruence|split; congruence]].
    rewrite Hu', Hu, drop_drop. f_equal. nia.
Qed.

(** While frames are left, column [k] reads the frames
    [k * fpp .. (k + 1) * fpp - 1]. *)
Lemma column_read_full wav block fpp (k : nat) :
  1 <= sf_channels wav -> 1 <= fpp ->
  (Z.of_nat k + 1) * fpp * sf_channels wav <= Z.of_nat (length (sf_unread wav)) ->
  fpp * sf_channels wav <= Z.of_nat (length block) ->
  (column_read wav block fpp k).1.1 = fpp /\
  take (Z.to_nat (fpp * sf_channels wav)) (column_read wav block fpp k).1.2
  = take (Z.to_nat (fpp * sf_channels wav))
      (drop (Z.to_nat (Z.of_nat k * fpp * sf_channels wav)) (sf_unread wav)).
Proof.
  intros Hc Hf Hk Hb.
  destruct (reads_unread wav block fpp k Hc Hf) as (Hu & Hch & Hfr & Hl); [nia|exact Hb|].
  unfold column_read. destruct (reads wav block fpp k) as [w b]. cbn [fst snd] in *.
  destruct (readf w b fpp) as [[got b'] w'] eqn:Hread. cbn [fst snd].
  destruct (readf_spec w b fpp got b' w' ltac:(lia) ltac:(lia) Hread)
    as (Hgot & _ & _ & Hb' & _).
  rewrite Hch in *.
  assert (Z.of_nat (length (sf_unread w))
          = Z.of_nat (length (sf_unread wav)) - Z.of_nat k * fpp * sf_channels wav) as Hlen.
  { rewrite Hu, length_drop. nia. }
  assert (fpp <= Z.of_nat (length (sf_unread w)) / sf_channels wav) as Hq.
  { apply Z.div_le_lower_bound; [lia|]. rewrite Hlen. nia. }
  assert (got = fpp) as -> by lia.
  split; [reflexivity|].
  rewrite Hb', take_app_le by (rewrite length_take; nia).
  rewrite take_take, Nat.min_id, Hu. reflexivity.
Qed.

(** The quotient fits an [int]: no truncation. *)
Lemma frames_per_pixel_exact frames w :
  0 <= frames -> 0 < w -> frames / w < 2 ^ 31 ->
  frames_per_pixel frames w = Z.max 1 (frames / w).
Proof.
  intros Hf Hw Hq. unfold frames_per_pixel, to_int.
  assert (0 <= frames / w) by (apply Z.div_pos; lia).
  rewrite Z.mod_small by lia. f_equal. lia.
Qed.

Lemma frames_per_pixel_pos frames w : 1 <= frames_per_pixel frames w.
Proof. unfold frames_per_pixel. lia. Qed.

(** The columns never ask for more frames than the source has, unless it
    has none. *)
Lemma render_width_frames frames width :
  0 < frames -> 0 < width ->
  frames / render_width frames width < 2 ^ 31 ->
  0 < render_width frames width /\
  render_width frames width * frames_per_pixel frames (render_width frames width)
  <= frames.
Proof.
  intros Hf Hw Hq.
  assert (0 < render_width frames width) as HW.
  { unfold render_width, not_enough_samples.
    destruct (frames <? width); [rewrite (proj2 (Z.ltb_lt _ _) Hf)|]; lia. }
  split; [exact HW|].
  rewrite frames_per_pixel_exact by lia.
  assert (render_width frames width <= frames) as Hle.
  { unfold render_width, not_enough_samples.
    destruct (frames <? width) eqn:E; [rewrite (proj2 (Z.ltb_lt _ _) Hf); lia|].
    apply Z.ltb_ge in E. lia. }
  pose proof (Z.mul_div_le frames (render_width frames width) HW).
  assert (1 <= frames / render_width frames width)
    by (apply Z.div_le_lower_bound; lia).
  lia.
Qed.

(** ** Runs that end

    With a well-formed source, an image of at most [2^32 - 2^17] rows and a
    sample buffer whose size fits an [int], no assertion fails and no access
    is out of bounds. *)

Lemma readf_short wav block frames got block' wav' :
  Forall is_short (sf_unread wav) -> Forall is_short block ->
  readf wav block frames = (got, block', wav') ->
  Forall is_short (sf_unread wav') /\ Forall is_short block'.
Proof.
  intros Hu Hb Hread. unfold readf in Hread. injection Hread as _ <- <-. simpl.
  split; [apply Forall_drop, Hu|].
  apply Forall_app. split; [apply Forall_take, Hu|apply Forall_drop, Hb].
Qed.

Lemma reads_inv wav block fpp (k : nat) :
  1 <= sf_channels wav -> 0 <= fpp ->
  fpp * sf_channels wav <= Z.of_nat (length block) ->
  Forall is_short (sf_unread wav) -> Forall is_short block ->
  sf_channels (reads wav block fpp k).1 = sf_channels wav /\
  length (reads wav block fpp k).2 = length block /\
  Forall is_short (sf_unread (reads wav block fpp k).1) /\
  Forall is_short (reads wav block fpp k).2.
Proof.
  intros Hc Hf Hb Hu Hs. induction k as [|k (Hch & Hl & Hu' & Hs')].
  - simpl. auto.
  - cbn [reads]. destruct (reads wav block fpp k) as [w b]. cbn [fst snd] in *.
    destruct (readf w b fpp) as [[got b'] w'] eqn:Hread. cbn [fst snd].
    assert (1 <= sf_channels w) as Hcw by lia.
    assert (fpp * sf_channels w <= Z.of_nat (length b)) as Hbw by (rewrite Hch, Hl; exact Hb).
    pose proof (readf_length w b fpp got b' w' Hcw Hf Hbw Hread) as Hl'.
    destruct (readf_spec w b fpp got b' w' Hcw Hf Hread) as (_ & _ & _ & _ & Hch' & _).
    destruct (readf_short w b fpp got b' w' Hu' Hs' Hread) as [Hu'' Hs''].
    split; [congruence|]. split; [congruence|]. split; assumption.
Qed.

Lemma column_span_total h fpp wav block (k : nat) :
  0 <= h -> h + 2 ^ 17 <= 2 ^ 32 ->
  1 <= sf_channels wav -> 1 <= fpp ->
  fpp * sf_channels wav <= Z.of_nat (length block) ->
  Z.of_nat (length block) < 2 ^ 31 ->
  Forall is_short (sf_unread wav) -> Forall is_short block ->
  exists span, column_span h fpp wav block k = Ok span.
Proof.
  intros Hh Hb Hc Hf Hlen Hint Hu Hs.
  assert (0 <= fpp) as Hf0 by lia.
  destruct (reads_inv wav block fpp k Hc Hf0 Hlen Hu Hs) as (Hch & Hl & Hu' & Hs').
  unfold column_span, column_read.
  destruct (reads wav block fpp k) as [w b]. cbn [fst snd] in *.
  destruct (readf w b fpp) as [[got b'] w'] eqn:Hread.
  assert (1 <= sf_channels w) as Hcw by lia.
  assert (fpp * sf_channels w <= Z.of_nat (length b)) as Hbw by (rewrite Hch, Hl; exact Hlen).
  pose proof (readf_length w b fpp got b' w' Hcw Hf0 Hbw Hread) as Hl'.
  destruct (readf_spec w b fpp got b' w' Hcw Hf0 Hread) as (_ & Hg & _ & _ & Hch' & _).
  destruct (readf_short w b fpp got b' w' Hu' Hs' Hread) as [_ Hs''].
  rewrite Hch', Hch.
  assert (got * sf_channels wav <= Z.of_nat (length b')) as Hn
    by (rewrite Hl', Hl; nia).
  assert (got * sf_channels wav < 2 ^ 31) as Hn' by (rewrite Hl', Hl in Hn; lia).
  destruct (compute_spans_total h (sf_channels wav) got b' Hh Hb Hc (proj1 Hg) Hn Hn' Hs'')
    as (mn & mx & _ & Hspans).
  eauto.
Qed.

Theorem compute_waveform_ends wav out bg fg :
  wf_source wav -> wf_image out -> 0 < get_width out ->
  get_height out + 2 ^ 17 <= 2 ^ 32 ->
  sf_channels wav
  * frames_per_pixel (sf_frames wav) (render_width (sf_frames wav) (get_width out))
  < 2 ^ 31 ->
  exists final, compute_waveform wav out bg fg = Ok final.
Proof.
  intros (Hc & Hfr & _ & Hshort) Hwf Hw Hh Hspp.
  pose proof Hwf as (_ & Hhu & _). unfold is_unsigned in Hhu.
  apply compute_waveform_total; [lia|exact Hwf|exact Hw|].
  intros x Hx. unfold rendered_span.
  set (fpp := frames_per_pixel (sf_frames wav)
                (render_width (sf_frames wav) (get_width out))) in *.
  pose proof (frames_per_pixel_pos (sf_frames wav)
                (render_width (sf_frames wav) (get_width out))) as Hfpp.
  fold fpp in Hfpp.
  assert (samples_per_pixel (sf_channels wav) fpp = Ok (sf_channels wav * fpp)) as ->.
  { unfold samples_per_pixel.
    assert ((- 2 ^ 31 <=? sf_channels wav * fpp) && (sf_channels wav * fpp <? 2 ^ 31) = true)
      as -> by (apply andb_true_iff; split; [apply Z.leb_le|apply Z.ltb_lt]; nia).
    rewrite (proj2 (Z.leb_le 0 (sf_channels wav * fpp))) by nia. reflexivity. }
  rewrite bind_Ok_l.
  apply column_span_total; try lia.
  - rewrite length_replicate, Z2Nat.id by nia. lia.
  - rewrite length_replicate, Z2Nat.id by nia. lia.
  - exact Hshort.
  - apply Forall_replicate. unfold is_short. lia.
Qed.

(** The same for a source that holds fewer samples than it announces: the
    run ends whatever the reads return. *)
Lemma compute_waveform_ends_on_short_reads wav out bg fg :
  1 <= sf_channels wav -> 0 <= sf_frames wav -> Forall is_short (sf_unread wav) ->
  wf_image out -> 0 < get_width out ->
  get_height out + 2 ^ 17 <= 2 ^ 32 ->
  sf_channels wav
  * frames_per_pixel (sf_frames wav) (render_width (sf_frames wav) (get_width out))
  < 2 ^ 31 ->
  exists final, compute_waveform wav out bg fg = Ok final.
Proof.
  intros Hc Hfr Hshort Hwf Hw Hh Hspp.
  pose proof Hwf as (_ & Hhu & _). unfold is_unsigned in Hhu.
  apply compute_waveform_total; [lia|exact Hwf|exact Hw|].
  intros x Hx. unfold rendered_span.
  set (fpp := frames_per_pixel (sf_frames wav)
                (render_width (sf_frames wav) (get_width out))) in *.
  pose proof (frames_per_pixel_pos (sf_frames wav)
                (render_width (sf_frames wav) (get_width out))) as Hfpp.
  fold fpp in Hfpp.
  assert (samples_per_pixel (sf_channels wav) fpp = Ok (sf_channels wav * fpp)) as ->.
  { unfold samples_per_pixel.
    assert ((- 2 ^ 31 <=? sf_channels wav * fpp) && (sf_channels wav * fpp <? 2 ^ 31) = true)
      as -> by (apply andb_true_iff; split; [apply Z.leb_le|apply Z.ltb_lt]; nia).
    rewrite (proj2 (Z.leb_le 0 (sf_channels wav * fpp))) by nia. reflexivity. }
  rewrite bind_Ok_l.
  apply column_span_total; try lia.
  - rewrite length_replicate, Z2Nat.id by nia. lia.
  - rewrite length_replicate, Z2Nat.id by nia. lia.
  - exact Hshort.
  - apply Forall_replicate. unfold is_short. lia.
Qed.

(** * The spans ([y1] and [y2]) *)

(** In an image of fewer than [2^17] rows, where the 32-bit products
    [-min*h] and [max*h] do not wrap, the spans that a column computes from
    its scanned [min <= 0] and [max >= 0] are the formulas of the
    specification, over the integers and with truncating division. *)
Lemma spans_are_the_formulas h channels n block y1 y2 :
  0 <= h < 2 ^ 17 -> Forall is_short block ->
  compute_spans h channels n block = Ok (y1, y2) ->
  exists mn mx,
    scan channels n block = Ok (mn, mx) /\ mn <= 0 <= mx /\
    y1 = spec_y1 sample_scale h mn /\ y2 = spec_y2 sample_scale h mx.
Proof.
  intros Hh Hshort Hrun.
  apply compute_spans_inv in Hrun as (mn & mx & Hscan & Hsign & -> & -> & _).
  exists mn, mx. split; [exact Hscan|]. split; [exact Hsign|].
  unfold scan in Hscan.
  apply (scan_loop_range _ _ _ _ Hshort) in Hscan as [Hmn Hmx]; [|lia..].
  rewrite sample_scale_eq.
  split; [apply span_top_exact|apply span_bottom_exact]; lia.
Qed.

Example spans_of_a_loud_column :
  compute_spans 8 1 4 [0; -32768; 16384; 32767] = Ok (0, 7) /\
  spec_y1 sample_scale 8 (-32768) = 0 /\ spec_y2 sample_scale 8 32767 = 7.
Proof. repeat split. Qed.

(** C1: [y1] and [y2] are the formulas [clamp((h - (-min * h /
    full_scale)) / 2, 0, h)] and [clamp((h + max * h / full_scale) / 2, 0,
    h)] with [full_scale = 2^15].  The source computes them in 32-bit
    unsigned arithmetic: in an image of [2^17] rows the product
    [32768 * 131072] wraps to 0, and a column whose one sample is [-32768]
    gets [y1 = y2 = 65536], where the formula gives [y1 = 0]. *)
Theorem C1_wraps_at_131072_rows :
  is_unsigned 131072 /\ is_short (-32768) /\
  scan 1 1 [-32768] = Ok (-32768, 0) /\
  compute_spans 131072 1 1 [-32768] = Ok (65536, 65536) /\
  spec_y1 sample_scale 131072 (-32768) = 0 /\
  spec_y2 sample_scale 131072 0 = 65536.
Proof.
  split; [unfold is_unsigned; lia|]. split; [unfold is_short; lia|].
  repeat split.
Qed.

(** In an image of fewer than [2^17] rows, [min = -full_scale] gives
    [y1 = 0] and [max = +full_scale] would give [y2 = h].  No 16-bit sample
    equals [+full_scale]; the largest one, [full_scale - 1], gives
    [y2 = h - 1] in an image of 1 to [2^15] rows. *)
Lemma full_scale_spans h :
  0 <= h < 2 ^ 17 ->
  span_top h (- sample_scale) = 0 /\
  span_bottom h sample_scale = h /\
  (forall s, is_short s -> s <> sample_scale /\ s <= sample_scale - 1) /\
  (1 <= h <= 2 ^ 15 -> span_bottom h (sample_scale - 1) = h - 1).
Proof.
  intros Hh. rewrite sample_scale_eq. split; [|split; [|split]].
  - rewrite span_top_eq by (unfold is_unsigned; lia).
    replace (- - 2 ^ 15 * h) with (h * 2 ^ 15) by lia.
    rewrite u32_small by lia.
    rewrite Z.div_mul by lia. rewrite Z.sub_diag. reflexivity.
  - unfold span_bottom. rewrite sample_scale_eq.
    rewrite (u32_small (2 ^ 15)) by lia.
    rewrite (u32_small (2 ^ 15 * h)) by lia.
    replace (2 ^ 15 * h) with (h * 2 ^ 15) by lia.
    rewrite Z.div_mul by lia. rewrite u32_small by lia.
    replace (h + h) with (h * 2) by lia. rewrite Z.div_mul by lia.
    apply clamp_id. lia.
  - intros s Hs. unfold is_short in Hs. lia.
  - intros Hh'. unfold span_bottom. rewrite sample_scale_eq.
    rewrite (u32_small (2 ^ 15 - 1)) by lia.
    rewrite (u32_small ((2 ^ 15 - 1) * h)) by lia.
    assert ((2 ^ 15 - 1) * h / 2 ^ 15 = h - 1) as ->.
    { symmetry. apply Z.div_unique with (r := 2 ^ 15 - h); lia. }
    rewrite u32_small by lia.
    assert ((h + (h - 1)) / 2 = h - 1) as ->.
    { symmetry. apply Z.div_unique with (r := 1); lia. }
    apply clamp_id. lia.
Qed.

(** C10: the assertions on [y1] and [y2].  In an image of [2^32 - 1] rows
    the sum [h + max*h/sample_scale] wraps: a column with the one sample 1
    gets [y2 = 65535], below [h/2], and [assert(h/2 <= y2 && y2 <= h)]
    fails. *)
Theorem C10_assert_y2_fails (rows : list (list rgba_pixel)) (ws : list (Z * Z))
    (bg fg : rgba_pixel) :
  is_unsigned 4294967295 /\ is_short 1 /\
  span_bottom 4294967295 1 = 65535 /\ 4294967295 / 2 = 2147483647 /\
  compute_spans 4294967295 1 1 [1] = Abort AssertY2 /\
  compute_waveform (Sndfile 0 "" 1 1 [1]) (Image 1 4294967295 rows ws) bg fg
  = Abort AssertY2.
Proof.
  split; [unfold is_unsigned; lia|]. split; [unfold is_short; lia|].
  split; [reflexivity|]. split; [reflexivity|]. split; reflexivity.
Qed.

(** * The rendered image *)

Lemma drawn_image_width wav out :
  get_width (drawn_image wav out) = render_width (sf_frames wav) (get_width out) /\
  get_height (drawn_image wav out) = get_height out.
Proof.
  unfold drawn_image, render_width.
  destruct (not_enough_samples _ _); split; reflexivity.
Qed.

(** The pixels of the image that a run leaves. *)
Lemma compute_waveform_pixels wav out bg fg final :
  0 <= sf_frames wav -> wf_image out ->
  compute_waveform wav out bg fg = Ok final ->
  wf_image final /\
  get_width final = get_width out /\ get_height final = get_height out /\
  forall x, 0 <= x < get_width out ->
    exists span,
      rendered_span wav (render_width (sf_frames wav) (get_width out))
        (get_height out) (source_column (sf_frames wav) (get_width out) x) = Ok span /\
      0 <= span.1 <= span.2 /\ span.2 <= get_height out /\
      forall y, 0 <= y < get_height out ->
        get_pixel final x y = Some (column_color bg fg span y).
Proof.
  intros Hf Hwf Hrun.
  destruct (compute_waveform_inv _ _ _ _ _ Hf Hwf Hrun) as (drawn & _ & Hpos & Hr & Hfin).
  destruct (drawn_image_width wav out) as [HW HH].
  destruct Hr as (Hwf' & Hw' & Hh' & _ & Hcols). rewrite HW, HH in *.
  unfold source_column.
  destruct (not_enough_samples (sf_frames wav) (get_width out)) eqn:E.
  - destruct Hfin as (Hwff & Hwf2 & Hhf & _ & Hpx).
    split; [exact Hwff|]. split; [exact Hwf2|]. split; [exact Hhf|].
    intros x Hx.
    assert (0 <= x * render_width (sf_frames wav) (get_width out) / get_width out
            < render_width (sf_frames wav) (get_width out)) as Hxx.
    { split; [apply Z.div_pos; nia|apply Z.div_lt_upper_bound; nia]. }
    destruct (Hcols _ Hxx) as (span & Hspan & H1 & H2 & Hcol).
    exists span. split; [exact Hspan|]. split; [exact H1|]. split; [exact H2|].
    intros y Hy. destruct (Hpx x y Hx Hy) as [_ ->]. rewrite Hw'. apply Hcol, Hy.
  - subst final.
    assert (render_width (sf_frames wav) (get_width out) = get_width out) as HWd.
    { apply render_width_direct. unfold not_enough_samples in E.
      apply Z.ltb_ge in E. exact E. }
    rewrite HWd in *.
    split; [exact Hwf'|]. split; [exact Hw'|]. split; [exact Hh'|exact Hcols].
Qed.

(** In an image of [2^17] rows, where [32768 * h] wraps, the run ends and
    the column of the loudest negative sample is background from top to
    bottom, as for silence. *)
Lemma loudest_negative_sample_unpainted bg fg :
  exists final,
    compute_waveform (Sndfile 0 "" 1 1 [-32768]) (new_image 1 131072) bg fg
    = Ok final /\
    forall y, 0 <= y < 131072 -> get_pixel final 0 y = Some bg.
Proof.
  set (wav := Sndfile 0 "" 1 1 [-32768]).
  assert (wf_image (new_image 1 131072)) as Hwf
    by (apply wf_new_image; unfold is_unsigned; lia).
  assert (wf_source wav) as Hsrc.
  { unfold wf_source, wav. simpl. repeat split; try lia.
    repeat constructor; unfold is_short; lia. }
  destruct (compute_waveform_ends wav (new_image 1 131072) bg fg Hsrc Hwf)
    as (final & Hrun); [simpl; lia..| |].
  { change (1 * frames_per_pixel 1 (render_width 1 1) < 2 ^ 31). vm_compute. reflexivity. }
  exists final. split; [exact Hrun|]. intros y Hy.
  assert (0 <= sf_frames wav) as Hf by (simpl; lia).
  destruct (compute_waveform_pixels wav _ bg fg final Hf Hwf Hrun) as (_ & _ & _ & Hpx).
  destruct (Hpx 0) as (span & Hspan & _ & _ & Hcol); [simpl; lia|].
  assert (span = (65536, 65536)) as ->.
  { change (rendered_span wav 1 131072 0 = Ok span) in Hspan.
    assert (rendered_span wav 1 131072 0 = Ok (65536, 65536)) as E
      by (vm_compute; reflexivity).
    congruence. }
  rewrite (Hcol y) by (simpl; lia). unfold column_color. simpl.
  rewrite decide_False by lia. reflexivity.
Qed.

(** The formulas of the specification, over the integers, reach both edges
    at full scale in an image of any height. *)
Lemma spec_spans_at_full_scale h :
  0 <= h ->
  spec_y1 sample_scale h (- sample_scale) = 0 /\
  spec_y2 sample_scale h sample_scale = h.
Proof.
  intros Hh. rewrite sample_scale_eq. unfold spec_y1, spec_y2, clamp. split.
  - replace (- - 2 ^ 15 * h) with (h * 2 ^ 15) by lia.
    rewrite Z.quot_mul by lia. rewrite Z.sub_diag. change (0 ÷ 2) with 0. lia.
  - rewrite (Z.mul_comm (2 ^ 15) h), Z.quot_mul by lia.
    replace (h + h) with (h * 2) by lia. rewrite Z.quot_mul by lia. lia.
Qed.

(** C6: at full scale the formulas of the specification, over the
    integers, give [y1 = 0] for [min = -full_scale] and [y2 = h] for
    [max = +full_scale], in an image of any height, and below [2^17] rows the
    source computes the same.  In an image of [2^17] rows the 32-bit product
    [32768 * 131072] wraps to 0: a column whose one sample is [-full_scale]
    gets [y1 = 65536], not 0, and the run paints it in the background colour
    from top to bottom; the ink does not reach the top edge. *)
Theorem C6_top_edge_missed_at_131072_rows (bg fg : rgba_pixel) :
  (forall h, 0 <= h ->
     spec_y1 sample_scale h (- sample_scale) = 0 /\
     spec_y2 sample_scale h sample_scale = h) /\
  (forall h, 0 <= h < 2 ^ 17 ->
     span_top h (- sample_scale) = 0 /\ span_bottom h sample_scale = h) /\
  is_unsigned 131072 /\ is_short (- sample_scale) /\
  scan 1 1 [- sample_scale] = Ok (- sample_scale, 0) /\
  spec_y1 sample_scale 131072 (- sample_scale) = 0 /\
  span_top 131072 (- sample_scale) = 65536 /\
  compute_spans 131072 1 1 [- sample_scale] = Ok (65536, 65536) /\
  exists final,
    compute_waveform (Sndfile 0 "" 1 1 [- sample_scale]) (new_image 1 131072) bg fg
    = Ok final /\
    forall y, 0 <= y < 131072 -> get_pixel final 0 y = Some bg.
Proof.
  split; [exact spec_spans_at_full_scale|]. split.
  { intros h Hh. destruct (full_scale_spans h Hh) as (H1 & H2 & _).
    split; [exact H1|exact H2]. }
  split; [unfold is_unsigned; lia|].
  split; [unfold is_short; rewrite sample_scale_eq; lia|].
  split; [reflexivity|]. split; [reflexivity|]. split; [reflexivity|].
  split; [reflexivity|].
  exact (loudest_negative_sample_unpainted bg fg).
Qed.

(** The assignments that a run makes to the image it leaves. *)
Lemma compute_waveform_writes wav out bg fg final :
  0 <= sf_frames wav -> wf_image out ->
  compute_waveform wav out bg fg = Ok final ->
  writes final =
  reverse (if not_enough_samples (sf_frames wav) (get_width out)
           then row_major (get_width out) (get_height out)
           else column_major (get_width out) (get_height out)) ++ writes out.
Proof.
  intros Hf Hwf Hrun.
  destruct (compute_waveform_inv _ _ _ _ _ Hf Hwf Hrun) as (drawn & _ & _ & Hr & Hfin).
  destruct Hr as (_ & _ & _ & Hws & _).
  unfold drawn_image in Hws.
  destruct (not_enough_samples (sf_frames wav) (get_width out)).
  - destruct Hfin as (_ & _ & _ & Hws' & _). exact Hws'.
  - subst final. exact Hws.
Qed.

(** C3: when [compute_waveform] has ended, the image has its width and
    height, every pixel of it has been assigned exactly once, and in every
    column the rows [0 .. y1-1] and [y2 .. h-1] hold the background colour
    and the rows [y1 .. y2-1] the foreground colour, [(y1, y2)] being the
    span of the column that was drawn; so every pixel is one of the two
    colours. *)
Theorem C3_every_pixel_painted_once wav out bg fg final :
  0 <= sf_frames wav -> wf_image out -> writes out = [] ->
  compute_waveform wav out bg fg = Ok final ->
  get_width final = get_width out /\ get_height final = get_height out /\
  NoDup (writes final) /\
  (forall x y, (x, y) ∈ writes final <-> in_image out x y) /\
  (forall x y, in_image out x y ->
     get_pixel final x y = Some fg \/ get_pixel final x y = Some bg) /\
  (forall x, 0 <= x < get_width out ->
     exists y1 y2,
       rendered_span wav (render_width (sf_frames wav) (get_width out))
         (get_height out) (source_column (sf_frames wav) (get_width out) x)
       = Ok (y1, y2) /\
       0 <= y1 <= y2 /\ y2 <= get_height out /\
       (forall y, 0 <= y < y1 -> get_pixel final x y = Some bg) /\
       (forall y, y1 <= y < y2 -> get_pixel final x y = Some fg) /\
       (forall y, y2 <= y < get_height out -> get_pixel final x y = Some bg)).
Proof.
  intros Hf Hwf Hfresh Hrun.
  destruct (compute_waveform_pixels _ _ _ _ _ Hf Hwf Hrun) as (_ & Hw & Hh & Hpx).
  pose proof (compute_waveform_writes _ _ _ _ _ Hf Hwf Hrun) as Hws.
  rewrite Hfresh, app_nil_r in Hws.
  split; [exact Hw|]. split; [exact Hh|]. split; [|split; [|split]].
  - rewrite Hws. apply NoDup_reverse_2.
    destruct (not_enough_samples _ _); [apply NoDup_row_major|apply NoDup_column_major].
  - intros x y. rewrite Hws, elem_of_reverse. unfold in_image.
    destruct (not_enough_samples _ _); [apply elem_of_row_major|apply elem_of_column_major].
  - intros x y [Hx Hy]. destruct (Hpx x Hx) as (span & _ & _ & _ & Hcol).
    rewrite (Hcol y Hy). unfold column_color. case_decide; auto.
  - intros x Hx. destruct (Hpx x Hx) as ([y1 y2] & Hspan & H1 & H2 & Hcol).
    simpl in H1, H2. exists y1, y2.
    split; [exact Hspan|]. split; [exact H1|]. split; [exact H2|].
    split; [|split]; intros y Hy; rewrite Hcol by lia; unfold column_color; simpl;
      [rewrite decide_False by lia|rewrite decide_True by lia|rewrite decide_False by lia];
      reflexivity.
Qed.

Lemma C3_every_pixel_painted_once_witness :
  0 <= sf_frames nine_frames /\ wf_image (new_image 4 8) /\
  writes (new_image 4 8) = [] /\
  compute_waveform nine_frames (new_image 4 8) white black = Ok nine_frames_4x8 /\
  NoDup (writes nine_frames_4x8) /\
  (get_pixel nine_frames_4x8 1 6 = Some black \/
   get_pixel nine_frames_4x8 1 6 = Some white).
Proof.
  assert (0 <= sf_frames nine_frames) as H1 by (simpl; lia).
  assert (wf_image (new_image 4 8)) as H2
    by (apply wf_new_image; unfold is_unsigned; lia).
  assert (compute_waveform nine_frames (new_image 4 8) white black
          = Ok nine_frames_4x8) as H4 by (vm_compute; reflexivity).
  destruct (C3_every_pixel_painted_once nine_frames (new_image 4 8) white black
              nine_frames_4x8 H1 H2 eq_refl H4) as (_ & _ & Hnd & _ & Hcol & _).
  split; [exact H1|]. split; [exact H2|]. split; [reflexivity|]. split; [exact H4|].
  split; [exact Hnd|]. apply Hcol. unfold in_image. simpl. lia.
Defined.

(** C4: when the source has fewer frames than the image has columns, a
    small image [W = max(frame_count, 1)] wide is drawn and every pixel
    [(x, y)] of the final image is the pixel [(x * W / width, y)] of the small
    one, an index that lies in [0 .. W-1]. *)
Theorem C4_nearest_neighbour_upscale wav out bg fg final :
  0 <= sf_frames wav < get_width out -> wf_image out ->
  compute_waveform wav out bg fg = Ok final ->
  let W := Z.max (sf_frames wav) 1 in
  exists small,
    render wav (new_image W (get_height out)) (get_height out) bg fg = Ok small /\
    get_width small = W /\ get_height small = get_height out /\
    forall x y, 0 <= x < get_width out -> 0 <= y < get_height out ->
      0 <= x * W / get_width out < W /\
      is_Some (get_pixel small (x * W / get_width out) y) /\
      get_pixel final x y = get_pixel small (x * W / get_width out) y.
Proof.
  intros Hf Hwf Hrun W.
  destruct (compute_waveform_inv wav out bg fg final (proj1 Hf) Hwf Hrun)
    as (small & Hrender & _ & Hr & Hfin).
  assert (not_enough_samples (sf_frames wav) (get_width out) = true) as E
    by (apply Z.ltb_lt; lia).
  unfold drawn_image in Hrender, Hr. rewrite E in Hrender, Hr, Hfin.
  rewrite render_width_max in Hrender, Hr by lia. fold W in Hrender, Hr.
  destruct Hr as (Hwfs & Hws & Hhs & _). simpl in Hws, Hhs.
  exists small. split; [exact Hrender|]. split; [exact Hws|]. split; [exact Hhs|].
  intros x y Hx Hy. destruct Hfin as (_ & _ & _ & _ & Hpx).
  destruct (Hpx x y Hx Hy) as [Hxx Hcopy]. rewrite Hws in Hxx, Hcopy.
  split; [exact Hxx|]. split; [|exact Hcopy].
  apply get_pixel_inside; [exact Hwfs|]. unfold in_image. lia.
Qed.

Lemma C4_nearest_neighbour_upscale_witness :
  0 <= sf_frames two_frames < get_width (new_image 5 4) /\
  wf_image (new_image 5 4) /\
  compute_waveform two_frames (new_image 5 4) white black = Ok two_frames_5x4 /\
  render two_frames (new_image 2 4) 4 white black = Ok two_frames_2x4 /\
  get_pixel two_frames_5x4 3 2 = get_pixel two_frames_2x4 (3 * 2 / 5) 2.
Proof.
  assert (0 <= sf_frames two_frames < get_width (new_image 5 4)) as H1
    by (simpl; lia).
  assert (wf_image (new_image 5 4)) as H2
    by (apply wf_new_image; unfold is_unsigned; lia).
  assert (compute_waveform two_frames (new_image 5 4) white black
          = Ok two_frames_5x4) as H3 by (vm_compute; reflexivity).
  destruct (C4_nearest_neighbour_upscale two_frames (new_image 5 4) white black
              two_frames_5x4 H1 H2 H3) as (small & Hr & _ & _ & Hpx).
  assert (render two_frames (new_image 2 4) 4 white black = Ok two_frames_2x4)
    as H4 by (vm_compute; reflexivity).
  change (render two_frames (new_image 2 4) 4 white black = Ok small) in Hr.
  rewrite H4 in Hr. injection Hr as <-.
  split; [exact H1|]. split; [exact H2|]. split; [exact H3|]. split; [exact H4|].
  apply (Hpx 3 2); simpl; lia.
Defined.

(** * Silence and sources without frames *)



Lemma rendered_span_no_frames wav h :
  wf_source wav -> sf_frames wav = 0 -> is_unsigned h ->
  (forall block, (column_read wav block 1 0).1.1 = 0) /\
  rendered_span wav 1 h 0 = Ok (h / 2, h / 2).
Proof.
  intros (Hc & _ & Hlen & _) Hfr Hh. rewrite Hfr in Hlen.
  assert (sf_unread wav = []) as Hnil by (apply nil_length_inv; lia).
  assert (forall block, readf wav block 1
            = (0, block, Sndfile (sf_error wav) (sf_strError wav) (sf_frames wav)
                           (sf_channels wav) [])) as Hread.
  { intros block. unfold readf. rewrite Hnil. simpl length.
    rewrite Z.div_0_l by lia. simpl. rewrite drop_0. reflexivity. }
  split.
  - intros block. change (column_read wav block 1 0) with (readf wav block 1).
    rewrite Hread. reflexivity.
  - unfold rendered_span. rewrite Hfr. change (frames_per_pixel 0 1) with 1.
    unfold samples_per_pixel. rewrite Z.mul_1_r.
    assert ((- 2 ^ 31 <=? sf_channels wav) && (sf_channels wav <? 2 ^ 31) = true) as ->
      by (apply andb_true_iff; split; [apply Z.leb_le|apply Z.ltb_lt]; lia).
    rewrite (proj2 (Z.leb_le 0 (sf_channels wav))) by lia. simpl.
    unfold column_span.
    change (column_read wav (replicate (Z.to_nat (sf_channels wav)) 0) 1 (Z.to_nat 0))
      with (readf wav (replicate (Z.to_nat (sf_channels wav)) 0) 1).
    rewrite Hread. simpl sf_channels.
    apply (compute_spans_silent h (sf_channels wav) 0); try lia; [exact Hh|constructor].
Qed.

(** C7: a source without frames does not end the run early: a small image
    one column wide is drawn, the read of its column returns nothing, its
    span is [(h/2, h/2)], and every pixel of the final image has the
    background colour. *)
Theorem C7_no_frames_all_background wav out bg fg :
  wf_source wav -> sf_frames wav = 0 -> wf_image out -> 0 < get_width out ->
  not_enough_samples (sf_frames wav) (get_width out) = true /\
  get_width (drawn_image wav out) = 1 /\
  (forall block, (column_read wav block (frames_per_pixel (sf_frames wav) 1) 0).1.1 = 0) /\
  rendered_span wav 1 (get_height out) 0 = Ok (get_height out / 2, get_height out / 2) /\
  exists final,
    compute_waveform wav out bg fg = Ok final /\
    get_width final = get_width out /\ get_height final = get_height out /\
    forall x y, in_image out x y -> get_pixel final x y = Some bg.
Proof.
  intros Hsrc Hfr Hwf Hw. pose proof Hwf as (_ & Hhu & _).
  destruct (rendered_span_no_frames wav (get_height out) Hsrc Hfr Hhu) as [Hread Hspan].
  assert (render_width (sf_frames wav) (get_width out) = 1) as HW.
  { rewrite render_width_max by lia. lia. }
  split; [apply Z.ltb_lt; lia|]. split.
  { rewrite (proj1 (drawn_image_width wav out)). exact HW. }
  split; [rewrite Hfr; exact Hread|]. split; [exact Hspan|].
  destruct (compute_waveform_total wav out bg fg) as (final & Hrun); [lia|exact Hwf|exact Hw| |].
  { rewrite HW. intros x Hx. replace x with 0 by lia. eauto. }
  exists final. split; [exact Hrun|].
  assert (0 <= sf_frames wav) as Hf0 by lia.
  destruct (compute_waveform_pixels wav out bg fg final Hf0 Hwf Hrun)
    as (_ & Hwd & Hht & Hpx).
  split; [exact Hwd|]. split; [exact Hht|].
  intros x y [Hx Hy]. destruct (Hpx x Hx) as (span & Hsp & _ & _ & Hcol).
  rewrite HW in Hsp.
  assert (source_column (sf_frames wav) (get_width out) x = 0) as Hsc.
  { unfold source_column. rewrite (proj2 (Z.ltb_lt _ _)) by lia.
    rewrite HW, Z.mul_1_r. apply Z.div_small. lia. }
  rewrite Hsc, Hspan in Hsp. injection Hsp as <-.
  rewrite (Hcol y Hy). unfold column_color. simpl.
  rewrite decide_False by lia. reflexivity.
Qed.

Lemma C7_no_frames_all_background_witness :
  wf_source no_frames /\ sf_frames no_frames = 0 /\
  wf_image (new_image 3 4) /\ 0 < get_width (new_image 3 4) /\
  exists final,
    compute_waveform no_frames (new_image 3 4) white black = Ok final /\
    forall x y, in_image (new_image 3 4) x y -> get_pixel final x y = Some white.
Proof.
  assert (wf_source no_frames) as H1.
  { unfold wf_source, no_frames. simpl. repeat split; try lia. constructor. }
  assert (wf_image (new_image 3 4)) as H3
    by (apply wf_new_image; unfold is_unsigned; lia).
  assert (0 < get_width (new_image 3 4)) as H4 by (simpl; lia).
  destruct (C7_no_frames_all_background no_frames (new_image 3 4) white black
              H1 eq_refl H3 H4) as (_ & _ & _ & _ & final & Hrun & _ & _ & Hpx).
  split; [exact H1|]. split; [reflexivity|]. split; [exact H3|]. split; [exact H4|].
  exists final. split; [exact Hrun|exact Hpx].
Defined.

(** * Determinism *)

(** C9: the pixels that a run leaves are fixed by the audio source, the
    size of the image and the two colours: two runs on the same source,
    into images of the same size whatever they held before, with the same
    colours, both end and leave the same pixels. *)
Theorem C9_render_deterministic wav out1 out2 bg fg final1 :
  0 <= sf_frames wav -> wf_image out1 -> wf_image out2 ->
  get_width out1 = get_width out2 -> get_height out1 = get_height out2 ->
  compute_waveform wav out1 bg fg = Ok final1 ->
  exists final2,
    compute_waveform wav out2 bg fg = Ok final2 /\
    get_width final1 = get_width final2 /\ get_height final1 = get_height final2 /\
    pixbuf final1 = pixbuf final2.
Proof.
  intros Hf Hwf1 Hwf2 Hw Hh Hrun1.
  destruct (compute_waveform_inv _ _ _ _ _ Hf Hwf1 Hrun1) as (drawn & _ & Hpos & Hr & _).
  destruct (drawn_image_width wav out1) as [HW HH].
  destruct Hr as (_ & _ & _ & _ & Hcols).
  rewrite HW, HH in Hcols. rewrite HW in Hpos.
  destruct (compute_waveform_total wav out2 bg fg Hf Hwf2) as (final2 & Hrun2).
  { lia. }
  { rewrite <- Hw, <- Hh. intros x Hx.
    destruct (Hcols x Hx) as (span & Hspan & _). eauto. }
  exists final2. split; [exact Hrun2|].
  destruct (compute_waveform_pixels _ _ _ _ _ Hf Hwf1 Hrun1) as (Hwff1 & Hw1 & Hh1 & Hpx1).
  destruct (compute_waveform_pixels _ _ _ _ _ Hf Hwf2 Hrun2) as (Hwff2 & Hw2 & Hh2 & Hpx2).
  split; [congruence|]. split; [congruence|].
  apply pixbuf_ext; [exact Hwff1|exact Hwff2|congruence|congruence|].
  intros x y [Hx Hy]. rewrite Hw1 in Hx. rewrite Hh1 in Hy.
  destruct (Hpx1 x Hx) as (span1 & Hsp1 & _ & _ & Hcol1).
  assert (0 <= x < get_width out2) as Hx2 by lia.
  destruct (Hpx2 x Hx2) as (span2 & Hsp2 & _ & _ & Hcol2).
  rewrite <- Hw, <- Hh in Hsp2. rewrite Hsp1 in Hsp2. injection Hsp2 as <-.
  rewrite Hcol1, Hcol2 by lia. reflexivity.
Qed.

Lemma C9_render_deterministic_witness :
  0 <= sf_frames nine_frames /\ wf_image (new_image 4 8) /\
  wf_image (Image 4 8 (replicate 8 (replicate 4 black)) [(0, 0)]) /\
  compute_waveform nine_frames (new_image 4 8) white black = Ok nine_frames_4x8 /\
  exists final2,
    compute_waveform nine_frames
      (Image 4 8 (replicate 8 (replicate 4 black)) [(0, 0)]) white black = Ok final2 /\
    pixbuf nine_frames_4x8 = pixbuf final2.
Proof.
  assert (0 <= sf_frames nine_frames) as H1 by (simpl; lia).
  assert (wf_image (new_image 4 8)) as H2
    by (apply wf_new_image; unfold is_unsigned; lia).
  assert (wf_image (Image 4 8 (replicate 8 (replicate 4 black)) [(0, 0)])) as H3.
  { unfold wf_image, is_unsigned. simpl. repeat split; try lia. repeat constructor. }
  assert (compute_waveform nine_frames (new_image 4 8) white black
          = Ok nine_frames_4x8) as H4 by (vm_compute; reflexivity).
  destruct (C9_render_deterministic nine_frames (new_image 4 8)
              (Image 4 8 (replicate 8 (replicate 4 black)) [(0, 0)]) white black
              nine_frames_4x8 H1 H2 H3 eq_refl eq_refl H4)
    as (final2 & Hrun2 & _ & _ & Hpix).
  split; [exact H1|]. split; [exact H2|]. split; [exact H3|]. split; [exact H4|].
  exists final2. split; [exact Hrun2|exact Hpix].
Defined.

(** * The width that is drawn and the frames of a column *)

(** 8000 frames drawn 100 columns wide: 80 frames to a column. *)
Example frames_per_pixel_8000_100 :
  render_width 8000 100 = 100 /\ frames_per_pixel 8000 100 = 80.
Proof. split; reflexivity. Qed.

(** The conversion to [int] keeps the low 32 bits of the quotient. *)
Example frames_per_pixel_truncates :
  frames_per_pixel 2147483648 1 = 1 /\ Z.max 1 (2147483648 / 1) = 2147483648.
Proof. split; reflexivity. Qed.

(** ** The states of the loop over the columns *)

Lemma samples_per_pixel_Ok channels fpp spp :
  samples_per_pixel channels fpp = Ok spp ->
  spp = channels * fpp /\ 0 <= channels * fpp < 2 ^ 31.
Proof.
  unfold samples_per_pixel. destruct (_ && _) eqn:E; [|discriminate].
  destruct (0 <=? channels * fpp) eqn:E'; [|discriminate].
  intros [= <-]. apply andb_true_iff in E as [_ E]. lia.
Qed.

Lemma for_each_app {St : Type} (body : St -> Z -> result St) (s : St) (l1 l2 : list Z) :
  for_each body s (l1 ++ l2) = (s' ← for_each body s l1; for_each body s' l2).
Proof.
  revert s. induction l1 as [|x l1 IH]; intros s; simpl; [reflexivity|].
  destruct (body s x) as [t|e]; simpl; [apply IH|reflexivity].
Qed.

(** A loop that has ended has passed through a state after every number
    of its steps. *)
Lemma for_each_prefix {St : Type} (body : St -> Z -> result St) (s st : St) (w x : Z) :
  0 <= x <= w ->
  for_each body s (seqZ 0 w) = Ok st ->
  exists st_x, for_each body s (seqZ 0 x) = Ok st_x.
Proof.
  intros Hx Hrun. replace w with (x + (w - x)) in Hrun by lia.
  rewrite seqZ_app, for_each_app in Hrun by lia.
  apply bind_Ok in Hrun as (st_x & Hst & _). eauto.
Qed.

(** The state of the loop after its first [x] columns. *)
Lemma render_columns_prefix bg fg fpp wav0 block0 img0 x st :
  wf_image img0 -> 0 <= x <= get_width img0 ->
  for_each (render_column bg fg (get_height img0) fpp) (wav0, block0, img0) (seqZ 0 x)
  = Ok st ->
  columns_done bg fg fpp wav0 block0 img0 (Z.to_nat x) st.
Proof.
  intros Hwf Hx Hrun. rewrite <- (length_seqZ 0 x).
  refine (for_each_inv (columns_done bg fg fpp wav0 block0 img0) _ _ _ _
            (columns_done_0 _ _ _ _ _ _ Hwf) _ Hrun).
  intros i y t t' Hl Hdone Hbody.
  apply lookup_seqZ in Hl as [-> Hi]. rewrite Z.add_0_l in Hbody.
  assert (Z.of_nat i < get_width img0) as Hi' by lia.
  destruct (render_column_inv _ _ _ _ _ _ _ _ _ Hdone Hbody) as (span & Hspan).
  destruct (columns_done_S _ _ _ _ _ _ _ _ _ Hi' Hdone Hspan) as (t'' & Hb' & Hdone').
  rewrite Hbody in Hb'. injection Hb' as <-. exact Hdone'.
Qed.

(** Where the source stands after the first [x] columns, while it still
    has [frames_per_pixel] frames for each of them. *)
Lemma loop_state_unread bg fg fpp wav block0 img0 x st :
  1 <= sf_channels wav -> 1 <= fpp ->
  wf_image img0 -> 0 <= x <= get_width img0 ->
  x * fpp * sf_channels wav <= Z.of_nat (length (sf_unread wav)) ->
  fpp * sf_channels wav <= Z.of_nat (length block0) ->
  for_each (render_column bg fg (get_height img0) fpp) (wav, block0, img0) (seqZ 0 x)
  = Ok st ->
  (st.1.1, st.1.2) = reads wav block0 fpp (Z.to_nat x) /\
  sf_unread st.1.1 = drop (Z.to_nat (x * fpp * sf_channels wav)) (sf_unread wav).
Proof.
  intros Hc Hf Hwf Hx Hlen Hb Hrun.
  destruct (render_columns_prefix _ _ _ _ _ _ _ _ Hwf Hx Hrun) as (Hrd & _).
  split; [exact Hrd|].
  destruct (reads_unread wav block0 fpp (Z.to_nat x) Hc Hf) as (Hun & _).
  - rewrite Z2Nat.id by lia. exact Hlen.
  - exact Hb.
  - rewrite Z2Nat.id in Hun by lia. rewrite <- Hun, <- Hrd. reflexivity.
Qed.

(** The loop of a run that ends. *)
Lemma render_loop_of_run wav out bg fg final :
  0 <= sf_frames wav -> wf_image out ->
  compute_waveform wav out bg fg = Ok final ->
  let w := render_width (sf_frames wav) (get_width out) in
  let fpp := frames_per_pixel (sf_frames wav) w in
  0 < w <= get_width out /\
  exists spp st,
    samples_per_pixel (sf_channels wav) fpp = Ok spp /\
    for_each (render_column bg fg (get_height out) fpp)
      (wav, replicate (Z.to_nat spp) 0, drawn_image wav out) (seqZ 0 w) = Ok st.
Proof.
  intros Hf Hwf Hrun w fpp.
  destruct (compute_waveform_inv _ _ _ _ _ Hf Hwf Hrun) as (drawn & Hrender & Hpos & _).
  destruct (drawn_image_width wav out) as [HW HH]. fold w in HW.
  rewrite HW in Hpos. split; [exact Hpos|].
  unfold render in Hrender. rewrite HW in Hrender. fold fpp in Hrender.
  apply bind_Ok in Hrender as (u & _ & Hrender).
  apply bind_Ok in Hrender as (spp & Hspp & Hrender).
  apply bind_Ok in Hrender as (st & Hloop & _).
  exists spp, st. split; [exact Hspp|exact Hloop].
Qed.

(** C2: with fewer frames than columns, [W = max(frame_count,
    1)] and a small image [W] wide and as high as the image is drawn and then
    scaled up; otherwise [W] is the width of the image, which is drawn
    directly.  When [frame_count / W] fits an [int], [frames_per_pixel =
    max(1, frame_count / W)].  Every column asks for [frames_per_pixel]
    frames, and in a source that has frames gets them: when the loop over
    the columns has reached column [x], the source stands at the frame
    [x * frames_per_pixel], the read of the column returns
    [frames_per_pixel] frames, the frames [x * frames_per_pixel ..
    (x + 1) * frames_per_pixel - 1], into the block, and the column hands
    the source and the block on as that read left them.  In a run that
    ends the loop reaches every column. *)
Theorem C2_width_and_frames_per_pixel wav out bg fg :
  wf_source wav -> wf_image out -> 0 < get_width out ->
  let frames := sf_frames wav in
  let c := sf_channels wav in
  let h := get_height out in
  let W := render_width frames (get_width out) in
  let fpp := frames_per_pixel frames W in
  (frames < get_width out ->
     W = Z.max frames 1 /\
     get_width (new_image W h) = W /\ get_height (new_image W h) = h /\
     compute_waveform wav out bg fg
     = (small ← render wav (new_image W h) h bg fg; upscale small out)) /\
  (get_width out <= frames ->
     W = get_width out /\
     compute_waveform wav out bg fg = render wav out h bg fg) /\
  (frames / W < 2 ^ 31 -> fpp = Z.max 1 (frames / W)) /\
  (0 < frames -> frames / W < 2 ^ 31 ->
     forall spp x st,
       samples_per_pixel c fpp = Ok spp -> 0 <= x < W ->
       for_each (render_column bg fg h fpp)
         (wav, replicate (Z.to_nat spp) 0, drawn_image wav out) (seqZ 0 x) = Ok st ->
       sf_unread st.1.1 = drop (Z.to_nat (x * fpp * c)) (sf_unread wav) /\
       exists block' wav',
         readf st.1.1 st.1.2 fpp = (fpp, block', wav') /\
         take (Z.to_nat (fpp * c)) block'
         = take (Z.to_nat (fpp * c)) (drop (Z.to_nat (x * fpp * c)) (sf_unread wav)) /\
         sf_unread wav' = drop (Z.to_nat ((x + 1) * fpp * c)) (sf_unread wav) /\
         forall st', render_column bg fg h fpp st x = Ok st' ->
           st'.1.1 = wav' /\ st'.1.2 = block') /\
  (forall final, compute_waveform wav out bg fg = Ok final ->
     exists spp,
       samples_per_pixel c fpp = Ok spp /\
       forall x, 0 <= x <= W ->
         exists st,
           for_each (render_column bg fg h fpp)
             (wav, replicate (Z.to_nat spp) 0, drawn_image wav out) (seqZ 0 x) = Ok st).
Proof.
  intros (Hc & Hfr & Hlen & _) Hwf Hw frames c h W fpp.
  split; [|split; [|split; [|split]]].
  - intros Hlt. split; [apply render_width_max; exact Hlt|].
    split; [reflexivity|]. split; [reflexivity|].
    unfold compute_waveform. fold frames.
    rewrite (proj2 (Z.ltb_lt frames (get_width out)) Hlt : not_enough_samples _ _ = true).
    reflexivity.
  - intros Hge. split; [apply render_width_direct; exact Hge|].
    unfold compute_waveform. fold frames.
    rewrite (proj2 (Z.ltb_ge frames (get_width out)) Hge : not_enough_samples _ _ = false).
    reflexivity.
  - intros Hq. apply frames_per_pixel_exact; [lia| |exact Hq].
    unfold W, render_width. destruct (not_enough_samples _ _); [|exact Hw].
    destruct (0 <? frames) eqn:E; [apply Z.ltb_lt in E|]; lia.
  - intros Hpos Hq spp x st Hspp Hx Hloop.
    destruct (render_width_frames frames (get_width out) Hpos Hw Hq) as [HW Hmul].
    fold W in HW, Hmul. fold fpp in Hmul.
    pose proof (frames_per_pixel_pos frames W) as Hfpp. fold fpp in Hfpp.
    apply samples_per_pixel_Ok in Hspp as [-> Hspp].
    destruct (drawn_image_width wav out) as [HWd HHd]. fold frames W in HWd.
    assert (wf_image (drawn_image wav out)) as Hwfd.
    { destruct (wf_drawn_image wav out (proj1 Hfr) Hwf) as [(H & _)|(H & _)]; exact H. }
    assert (1 <= c) as Hc1 by (unfold c; lia).
    assert (0 <= x) as Hx0 by lia.
    set (block0 := replicate (Z.to_nat (c * fpp)) 0) in *.
    assert (fpp * c <= Z.of_nat (length block0)) as Hb
      by (unfold block0; rewrite length_replicate, Z2Nat.id; lia).
    assert ((x + 1) * fpp * c <= Z.of_nat (length (sf_unread wav))) as Hhas.
    { rewrite Hlen. fold frames c.
      assert ((x + 1) * fpp <= W * fpp) as Hle by (apply Z.mul_le_mono_nonneg_r; lia).
      apply Z.mul_le_mono_nonneg_r; lia. }
    unfold h in *. rewrite <- HHd in *.
    destruct (loop_state_unread bg fg fpp wav block0 (drawn_image wav out) x st
                Hc1 Hfpp Hwfd) as [Hrd Hun]; [lia| |exact Hb|exact Hloop|].
    { fold c. nia. }
    fold c in Hun. split; [exact Hun|].
    destruct (column_read_full wav block0 fpp (Z.to_nat x) Hc1 Hfpp) as [Hgot Htake];
      [rewrite Z2Nat.id by lia; exact Hhas|exact Hb|].
    rewrite Z2Nat.id in Htake by lia. fold c in Htake.
    destruct (column_read wav block0 fpp (Z.to_nat x)) as [[got block'] wav'] eqn:Hread.
    cbn [fst snd] in Hgot, Htake. subst got.
    pose proof (reads_S _ _ _ _ _ _ _ Hread) as HS.
    unfold column_read in Hread. rewrite <- Hrd in Hread.
    exists block', wav'. split; [exact Hread|]. split; [exact Htake|]. split.
    + destruct (reads_unread wav block0 fpp (S (Z.to_nat x)) Hc1 Hfpp) as (Hun' & _).
      * rewrite Nat2Z.inj_succ, Z2Nat.id by lia. unfold Z.succ. exact Hhas.
      * exact Hb.
      * rewrite HS in Hun'. cbn [fst] in Hun'. fold c in Hun'.
        rewrite Nat2Z.inj_succ, Z2Nat.id in Hun' by lia. exact Hun'.
    + intros st' Hstep. destruct st as [[w b] i]. cbn [fst snd] in *.
      unfold render_column in Hstep. rewrite Hread in Hstep.
      apply bind_Ok in Hstep as (span & _ & Hstep).
      apply bind_Ok in Hstep as (img' & _ & Hstep).
      injection Hstep as <-. split; reflexivity.
  - intros final Hrun.
    destruct (render_loop_of_run wav out bg fg final (proj1 Hfr) Hwf Hrun)
      as (_ & spp & st & Hspp & Hloop).
    exists spp. split; [exact Hspp|]. intros x Hx.
    exact (for_each_prefix _ _ _ _ _ Hx Hloop).
Qed.

Lemma C2_width_and_frames_per_pixel_witness :
  wf_source nine_frames /\ wf_image (new_image 4 8) /\
  0 < get_width (new_image 4 8) /\
  render_width 9 4 = 4 /\
  frames_per_pixel 9 4 = Z.max 1 (9 / 4) /\
  exists st,
    for_each (render_column white black 8 2) (nine_frames, [0; 0], new_image 4 8)
      (seqZ 0 1) = Ok st /\
    sf_unread st.1.1 = [-32768; 32767; 100; -100; 0; 0; 3] /\
    exists block' wav',
      readf st.1.1 st.1.2 2 = (2, block', wav') /\
      take 2 block' = [-32768; 32767] /\
      sf_unread wav' = [100; -100; 0; 0; 3].
Proof.
  assert (wf_source nine_frames) as H1.
  { unfold wf_source, nine_frames. simpl. repeat split; try lia.
    repeat constructor; unfold is_short; lia. }
  assert (wf_image (new_image 4 8)) as H2
    by (apply wf_new_image; unfold is_unsigned; lia).
  assert (0 < get_width (new_image 4 8)) as H3 by (simpl; lia).
  destruct (C2_width_and_frames_per_pixel nine_frames (new_image 4 8) white black
              H1 H2 H3) as (_ & Hd & Hf & Hr & _).
  assert (get_width (new_image 4 8) <= sf_frames nine_frames) as H4
    by (vm_compute; discriminate).
  assert (sf_frames nine_frames
          / render_width (sf_frames nine_frames) (get_width (new_image 4 8)) < 2 ^ 31)
    as H5 by (vm_compute; reflexivity).
  assert (0 < sf_frames nine_frames) as H6 by (vm_compute; reflexivity).
  split; [exact H1|]. split; [exact H2|]. split; [exact H3|].
  split; [exact (proj1 (Hd H4))|]. split; [exact (Hf H5)|].
  assert (exists st,
            for_each (render_column white black 8 2) (nine_frames, [0; 0], new_image 4 8)
              (seqZ 0 1) = Ok st) as [st Hloop]
    by (eexists; vm_compute; reflexivity).
  assert (0 <= 1 < render_width (sf_frames nine_frames) (get_width (new_image 4 8)))
    as H7 by (vm_compute; split; [discriminate|reflexivity]).
  destruct (Hr H6 H5 2 1 st eq_refl H7 Hloop)
    as (Hun & block' & wav' & Hread & Htake & Hun' & _).
  exists st. split; [exact Hloop|]. split; [exact Hun|].
  exists block', wav'. split; [exact Hread|]. split; [exact Htake|exact Hun'].
Defined.

(** C2 for every source: false twice over.  [std::max<int>]
    keeps the low 32 bits of the quotient: [2^31] frames drawn one column
    wide give [frames_per_pixel = 1], not [2^31].  And for a source without
    frames, where [W = 1] and [frames_per_pixel = 1], the read of the one
    column returns no frame. *)
Lemma C2_truncated_quotient_and_empty_source :
  ~ (forall wav out,
       wf_source wav -> wf_image out -> 0 < get_width out ->
       let W := render_width (sf_frames wav) (get_width out) in
       frames_per_pixel (sf_frames wav) W = Z.max 1 (sf_frames wav / W)) /\
  ~ (forall wav out block x,
       wf_source wav -> wf_image out -> 0 < get_width out ->
       let W := render_width (sf_frames wav) (get_width out) in
       let fpp := frames_per_pixel (sf_frames wav) W in
       fpp * sf_channels wav <= Z.of_nat (length block) -> 0 <= x < W ->
       (column_read wav block fpp (Z.to_nat x)).1.1 = fpp).
Proof.
  split.
  - intros H.
    specialize (H (Sndfile 0 "" 2147483648 1 (replicate (Z.to_nat 2147483648) 0))
                  (new_image 1 1)).
    cbn [sf_frames get_width new_image] in H.
    assert (frames_per_pixel 2147483648 (render_width 2147483648 1)
            = Z.max 1 (2147483648 / render_width 2147483648 1)) as E.
    { apply H.
      - unfold wf_source. cbn [sf_channels sf_frames sf_unread].
        split; [lia|]. split; [lia|]. split.
        + rewrite length_replicate, Z2Nat.id; lia.
        + apply Forall_replicate. unfold is_short. lia.
      - apply wf_new_image; unfold is_unsigned; lia.
      - lia. }
    vm_compute in E. discriminate.
  - intros H.
    specialize (H no_frames (new_image 3 4) [0; 0] 0).
    assert ((column_read no_frames [0; 0]
               (frames_per_pixel (sf_frames no_frames)
                  (render_width (sf_frames no_frames) (get_width (new_image 3 4))))
               (Z.to_nat 0)).1.1
            = frames_per_pixel (sf_frames no_frames)
                (render_width (sf_frames no_frames) (get_width (new_image 3 4)))) as E.
    { apply H.
      - unfold wf_source, no_frames. simpl. repeat split; try lia. constructor.
      - apply wf_new_image; unfold is_unsigned; lia.
      - simpl. lia.
      - vm_compute. discriminate.
      - split; [vm_compute; discriminate|vm_compute; reflexivity]. }
    vm_compute in E. discriminate.
Qed.

(** * [main] *)

(** The exit codes of [main]. *)
Lemma exit_codes options open :
  let wav := open (input_file_name options) in
  let run := compute_waveform wav (new_image (width options) (height options))
               (background_color options) (foreground_color options) in
  (sf_error wav <> 0 ->
     exists line1 line2,
       main options open = (Return 2, [Cerr line1; Cerr line2]) /\
       includes line1 (input_file_name options) /\
       includes line2 (sf_strError wav)) /\
  (sf_error wav <> 0 ->
     (ComputeWaveform ∉ (main options open).2) /\
     (forall file_name img, ImageWrite file_name img ∉ (main options open).2)) /\
  (sf_error wav = 0 -> forall img, run = Ok img ->
     main options open
     = (Return 0, [ComputeWaveform; ImageWrite (output_file_name options) img])) /\
  ((main options open).1 = Return 2 <-> sf_error wav <> 0) /\
  ((main options open).1 = Return 0 <-> sf_error wav = 0 /\ exists img, run = Ok img).
Proof.
  intros wav run. unfold main. fold wav. fold run.
  destruct (decide (sf_error wav <> 0)) as [Herr|Hok].
  - rewrite bool_decide_eq_true_2 by exact Herr. simpl.
    split; [|split; [|split; [|split]]].
    + intros _. eexists _, _. split; [reflexivity|].
      split; eexists _, _; reflexivity.
    + intros _. split; [|intros file_name img]; intros Hin;
        repeat (apply elem_of_cons in Hin as [Hin|Hin]; [discriminate|]);
        apply elem_of_nil in Hin; exact Hin.
    + intros H0. congruence.
    + tauto.
    + split; [discriminate|]. intros [H0 _]. congruence.
  - rewrite bool_decide_eq_false_2 by exact Hok.
    assert (sf_error wav = 0) as H0 by (destruct (decide (sf_error wav = 0)); tauto).
    split; [|split; [|split; [|split]]].
    + intros H. contradiction.
    + intros H. contradiction.
    + intros _ img Hrun. rewrite Hrun. reflexivity.
    + destruct run; simpl; split; intros; (discriminate || contradiction).
    + destruct run as [img|e]; simpl; split.
      * intros _. eauto.
      * reflexivity.
      * discriminate.
      * intros [_ [img Himg]]. discriminate.
Qed.

(** C8: [main] returns 2 exactly when the handle reports an error after
    opening; it then writes two lines to [cerr], the first with the path of
    the input and the second with the error string of the library, and
    neither calls [compute_waveform] nor writes an image.  It returns 0
    exactly when the handle reports no error and [compute_waveform] ends,
    and has then written the image.  The handle is asked for its error
    once, before any frame is read, and a read gives the renderer a count
    only: a source that opened without error is rendered, written and
    answered with 0 whether or not it then delivers the frames that it
    announced. *)
Theorem C8_exit_codes options open :
  let wav := open (input_file_name options) in
  let run := compute_waveform wav (new_image (width options) (height options))
               (background_color options) (foreground_color options) in
  (sf_error wav <> 0 ->
     exists line1 line2,
       main options open = (Return 2, [Cerr line1; Cerr line2]) /\
       includes line1 (input_file_name options) /\
       includes line2 (sf_strError wav)) /\
  (sf_error wav <> 0 ->
     (ComputeWaveform ∉ (main options open).2) /\
     (forall file_name img, ImageWrite file_name img ∉ (main options open).2)) /\
  (sf_error wav = 0 -> forall img, run = Ok img ->
     main options open
     = (Return 0, [ComputeWaveform; ImageWrite (output_file_name options) img])) /\
  ((main options open).1 = Return 2 <-> sf_error wav <> 0) /\
  ((main options open).1 = Return 0 <-> sf_error wav = 0 /\ exists img, run = Ok img) /\
  (sf_error wav = 0 ->
   1 <= sf_channels wav -> 0 <= sf_frames wav -> Forall is_short (sf_unread wav) ->
   is_unsigned (width options) -> 0 < width options ->
   is_unsigned (height options) -> height options + 2 ^ 17 <= 2 ^ 32 ->
   sf_channels wav
   * frames_per_pixel (sf_frames wav) (render_width (sf_frames wav) (width options))
   < 2 ^ 31 ->
   exists img,
     main options open
     = (Return 0, [ComputeWaveform; ImageWrite (output_file_name options) img])).
Proof.
  intros wav run.
  destruct (exit_codes options open) as (H1 & H2 & H3 & H4 & H5).
  fold wav run in H1, H2, H3, H4, H5.
  split; [exact H1|]. split; [exact H2|]. split; [exact H3|].
  split; [exact H4|]. split; [exact H5|].
  intros Herr Hc Hfr Hshort Hwu Hw Hhu Hh Hspp.
  assert (wf_image (new_image (width options) (height options))) as Hwf
    by (apply wf_new_image; assumption).
  destruct (compute_waveform_ends_on_short_reads wav
              (new_image (width options) (height options))
              (background_color options) (foreground_color options)
              Hc Hfr Hshort Hwf Hw Hh Hspp) as (final & Hrun).
  exists final. exact (H3 Herr final Hrun).
Qed.

Lemma C8_exit_codes_witness :
  sf_error (missing_file "a.wav") <> 0 /\
  (exists line1 line2,
     main sample_options missing_file = (Return 2, [Cerr line1; Cerr line2]) /\
     includes line1 "a.wav" /\ includes line2 "System error.") /\
  sf_error (truncated_file "a.wav") = 0 /\
  exists img,
    main sample_options truncated_file
    = (Return 0, [ComputeWaveform; ImageWrite "a.png" img]).
Proof.
  assert (sf_error (missing_file "a.wav") <> 0) as H by (simpl; lia).
  split; [exact H|].
  split; [exact (proj1 (C8_exit_codes sample_options missing_file) H)|].
  split; [reflexivity|].
  destruct (C8_exit_codes sample_options truncated_file) as (_ & _ & _ & _ & _ & H6).
  apply H6.
  - reflexivity.
  - simpl; lia.
  - simpl; lia.
  - repeat constructor; unfold is_short; lia.
  - unfold is_unsigned; simpl; lia.
  - simpl; lia.
  - unfold is_unsigned; simpl; lia.
  - simpl; lia.
  - vm_compute; reflexivity.
Defined.

(** C8 for a failure while the frames are read: false.  A file that opens
    without error and ends after 3 of its 9 frames is drawn from what the
    reads return, the image is written and [main] returns 0. *)
Lemma C8_read_failure_returns_0 :
  ~ (forall options open,
       Z.of_nat (length (sf_unread (open (input_file_name options))))
       < sf_frames (open (input_file_name options))
         * sf_channels (open (input_file_name options)) ->
       (main options open).1 = Return 2) /\
  sf_error (truncated_file "a.wav") = 0 /\
  Z.of_nat (length (sf_unread (truncated_file "a.wav")))
  < sf_frames (truncated_file "a.wav") * sf_channels (truncated_file "a.wav") /\
  (readf (truncated_file "a.wav") [0; 0] 2).1.1 = 2 /\
  (readf (readf (truncated_file "a.wav") [0; 0] 2).2 [0; 0] 2).1.1 = 1 /\
  exists img,
    main sample_options truncated_file
    = (Return 0, [ComputeWaveform; ImageWrite "a.png" img]).
Proof.
  assert (exists img,
            main sample_options truncated_file
            = (Return 0, [ComputeWaveform; ImageWrite "a.png" img])) as Hmain
    by (eexists; vm_compute; reflexivity).
  split; [|split; [reflexivity|split; [reflexivity|split; [reflexivity|split;
    [reflexivity|exact Hmain]]]]].
  intros H. specialize (H sample_options truncated_file).
  destruct Hmain as [img Hmain]. rewrite Hmain in H.
  assert (Return 0 = Return 2) as E by (apply H; vm_compute; reflexivity).
  discriminate.
Qed.

(** * Further properties of the renderer *)

(** ** The spans as functions of the loudness *)

Lemma span_top_small h mn :
  0 <= h < 2 ^ 17 -> - 2 ^ 15 <= mn <= 0 ->
  span_top h mn = (h - - mn * h / 2 ^ 15) / 2 /\ 0 <= - mn * h / 2 ^ 15 <= h.
Proof.
  intros Hh Hmn.
  assert (0 <= - mn * h / 2 ^ 15 <= h) as Hq.
  { split; [apply Z.div_pos; nia|apply Z.div_le_upper_bound; nia]. }
  split; [|exact Hq].
  rewrite span_top_eq by (unfold is_unsigned; lia).
  rewrite u32_small by nia. reflexivity.
Qed.

Lemma span_bottom_small h mx :
  0 <= h < 2 ^ 17 -> 0 <= mx < 2 ^ 15 ->
  span_bottom h mx = (h + mx * h / 2 ^ 15) / 2 /\ 0 <= mx * h / 2 ^ 15 <= h.
Proof.
  intros Hh Hmx.
  assert (0 <= mx * h / 2 ^ 15 <= h) as Hq.
  { split; [apply Z.div_pos; nia|apply Z.div_le_upper_bound; nia]. }
  split; [|exact Hq].
  unfold span_bottom. rewrite sample_scale_eq.
  rewrite (u32_small mx) by lia. rewrite (u32_small (mx * h)) by nia.
  rewrite u32_small by lia. apply clamp_id. split.
  - apply Z.div_pos; lia.
  - apply Z.div_le_upper_bound; lia.
Qed.

(** X1: in an image of fewer than [2^17] rows a louder column is never
    drawn narrower: [y1] does not grow when [min] falls, and [y2] does not
    shrink when [max] rises. *)
Theorem X1_louder_is_wider h mn mn' mx mx' :
  0 <= h < 2 ^ 17 ->
  - 2 ^ 15 <= mn' <= mn -> mn <= 0 ->
  0 <= mx <= mx' -> mx' < 2 ^ 15 ->
  span_top h mn' <= span_top h mn /\ span_bottom h mx <= span_bottom h mx'.
Proof.
  intros Hh Hmn' Hmn Hmx Hmx'.
  destruct (span_top_small h mn Hh) as [-> _]; [lia|].
  destruct (span_top_small h mn' Hh) as [-> _]; [lia|].
  destruct (span_bottom_small h mx Hh) as [-> _]; [lia|].
  destruct (span_bottom_small h mx' Hh) as [-> _]; [lia|].
  assert (- mn * h / 2 ^ 15 <= - mn' * h / 2 ^ 15) by (apply Z.div_le_mono; nia).
  assert (mx * h / 2 ^ 15 <= mx' * h / 2 ^ 15) by (apply Z.div_le_mono; nia).
  split; apply Z.div_le_mono; lia.
Qed.

Lemma X1_louder_is_wider_witness :
  0 <= 50 < 2 ^ 17 /\
  span_top 50 (-20000) <= span_top 50 (-100) /\
  span_bottom 50 100 <= span_bottom 50 20000.
Proof.
  assert (0 <= 50 < 2 ^ 17) as Hh by lia.
  split; [exact Hh|].
  apply (X1_louder_is_wider 50 (-100) (-20000) 100 20000 Hh); lia.
Defined.

(** X2: in an image of fewer than [2^17] rows the spans of [-a] and [+a]
    lie symmetric about the middle, to within one row: [y1(-a) + y2(a)] is
    [h] or [h - 1]. *)
Theorem X2_spans_symmetric h a :
  0 <= h < 2 ^ 17 -> 0 <= a < 2 ^ 15 ->
  h - 1 <= span_top h (- a) + span_bottom h a <= h.
Proof.
  intros Hh Ha.
  destruct (span_top_small h (- a) Hh) as [-> _]; [lia|].
  destruct (span_bottom_small h a Hh) as [-> Hq]; [lia|].
  replace (- - a) with a by lia.
  set (q := a * h / 2 ^ 15) in *. clearbody q.
  pose proof (Z.div_mod (h - q) 2) as H1.
  pose proof (Z.div_mod (h + q) 2) as H2.
  pose proof (Z.mod_pos_bound (h - q) 2) as H3.
  pose proof (Z.mod_pos_bound (h + q) 2) as H4.
  lia.
Qed.

Lemma X2_spans_symmetric_witness :
  0 <= 51 < 2 ^ 17 /\ 0 <= 12345 < 2 ^ 15 /\
  51 - 1 <= span_top 51 (- 12345) + span_bottom 51 12345 <= 51.
Proof.
  assert (0 <= 51 < 2 ^ 17) as Hh by lia.
  assert (0 <= 12345 < 2 ^ 15) as Ha by lia.
  split; [exact Hh|]. split; [exact Ha|].
  exact (X2_spans_symmetric 51 12345 Hh Ha).
Defined.

(** ** What a column scans *)

Lemma compute_spans_check h channels n block :
  compute_spans h channels n block =
  (_ ← assert (n <=? Z.of_nat (length block)) AssertBlock;
   env ← scan channels n block; check_spans h env).
Proof.
  unfold compute_spans, check_spans.
  destruct (assert _ _); simpl; [|reflexivity].
  destruct (scan channels n block) as [[mn mx]|e]; reflexivity.
Qed.

Lemma left_channel_ext channels b1 b2 first count :
  (forall j, first <= j < first + count ->
     b1 !! Z.to_nat (j * channels) = b2 !! Z.to_nat (j * channels)) ->
  left_channel channels b1 first count = left_channel channels b2 first count.
Proof.
  intros H. unfold left_channel. apply list_fmap_ext.
  intros i j Hj. apply lookup_seqZ in Hj as [-> Hi].
  rewrite H by lia. reflexivity.
Qed.

(** After the scan, the spans are a function of the samples of channel 0
    among those that the read returned. *)
Lemma compute_spans_envelope h channels got block :
  1 <= channels -> 0 <= got ->
  got * channels <= Z.of_nat (length block) -> got * channels < 2 ^ 31 ->
  compute_spans h channels (got * channels) block
  = check_spans h (envelope 0 0 (left_channel channels block 0 got)).
Proof.
  intros Hc Hg Hlen Hint. rewrite compute_spans_check.
  rewrite (proj2 (Z.leb_le _ _) Hlen). simpl.
  rewrite scan_spec by assumption. reflexivity.
Qed.

(** X3: the sample buffer is used again for every column, and what an
    earlier read left in it behind the samples of the last read is never
    looked at: two buffers that agree on the [n] samples read give the same
    spans, or the same failed assertion. *)
Theorem X3_stale_samples_ignored h channels got b1 b2 :
  1 <= channels -> 0 <= got -> got * channels < 2 ^ 31 ->
  got * channels <= Z.of_nat (length b1) ->
  got * channels <= Z.of_nat (length b2) ->
  take (Z.to_nat (got * channels)) b1 = take (Z.to_nat (got * channels)) b2 ->
  compute_spans h channels (got * channels) b1
  = compute_spans h channels (got * channels) b2.
Proof.
  intros Hc Hg Hint Hl1 Hl2 Htake.
  rewrite !compute_spans_envelope by assumption. f_equal. f_equal.
  apply left_channel_ext. intros j Hj.
  assert (Z.to_nat (j * channels) < Z.to_nat (got * channels))%nat as Hi by nia.
  rewrite <- (lookup_take_lt b1 _ _ Hi), <- (lookup_take_lt b2 _ _ Hi), Htake.
  reflexivity.
Qed.

Lemma X3_stale_samples_ignored_witness :
  1 <= 2 /\ 0 <= 2 /\ 2 * 2 < 2 ^ 31 /\
  compute_spans 50 2 (2 * 2) [100; 7; -200; 7; 32767; -32768]
  = compute_spans 50 2 (2 * 2) [100; 7; -200; 7].
Proof.
  assert (1 <= 2) as Hc by lia. assert (0 <= 2) as Hg by lia.
  assert (2 * 2 < 2 ^ 31) as Hi by lia.
  split; [exact Hc|]. split; [exact Hg|]. split; [exact Hi|].
  apply (X3_stale_samples_ignored 50 2 2 _ _ Hc Hg Hi).
  - simpl. lia.
  - simpl. lia.
  - reflexivity.
Defined.

Lemma taken_step a fpp total m got :
  0 <= fpp -> 0 <= total -> 0 <= a ->
  m = Z.min a total -> got = Z.min fpp (total - m) ->
  m + got = Z.min (a + fpp) total.
Proof. lia. Qed.

(** The source after [k] columns: [frames_taken] frames are gone. *)
Lemma reads_taken wav block fpp (k : nat) :
  1 <= sf_channels wav -> 0 <= fpp ->
  fpp * sf_channels wav <= Z.of_nat (length block) ->
  sf_unread (reads wav block fpp k).1
  = drop (Z.to_nat (frames_taken wav fpp k * sf_channels wav)) (sf_unread wav) /\
  sf_channels (reads wav block fpp k).1 = sf_channels wav /\
  length (reads wav block fpp k).2 = length block.
Proof.
  intros Hc Hf Hb.
  set (c := sf_channels wav) in *.
  set (len := Z.of_nat (length (sf_unread wav))).
  assert (0 <= len / c) as HT by (apply Z.div_pos; lia).
  assert (len / c * c <= len) as HTc
    by (rewrite Z.mul_comm; apply Z.mul_div_le; lia).
  induction k as [|k (Hu & Hch & Hl)].
  - unfold frames_taken. fold len c. simpl reads. cbn [fst snd].
    replace (Z.min (Z.of_nat 0 * fpp) (len / c)) with 0 by lia.
    rewrite drop_0. auto.
  - cbn [reads]. destruct (reads wav block fpp k) as [w b]. cbn [fst snd] in *.
    destruct (readf w b fpp) as [[got b'] w'] eqn:Hread. cbn [fst snd].
    assert (1 <= sf_channels w) as Hcw by lia.
    assert (fpp * sf_channels w <= Z.of_nat (length b)) as Hbw
      by (rewrite Hch, Hl; exact Hb).
    pose proof (readf_length w b fpp got b' w' Hcw Hf Hbw Hread) as Hl'.
    destruct (readf_spec w b fpp got b' w' Hcw Hf Hread)
      as (Hgot & _ & _ & _ & Hch' & _ & Hu').
    rewrite Hch in *.
    set (m := frames_taken wav fpp k) in *.
    assert (0 <= m <= len / c) as Hm by (unfold m, frames_taken; fold len c; lia).
    assert (Z.of_nat (length (sf_unread w)) = len - m * c) as Hlen.
    { rewrite Hu, length_drop. unfold len. nia. }
    assert (Z.of_nat (length (sf_unread w)) / c = len / c - m) as Hq.
    { rewrite Hlen. replace (len - m * c) with (len + - m * c) by lia.
      rewrite Z.div_add by lia. lia. }
    rewrite Hq in Hgot.
    assert (m + got = frames_taken wav fpp (S k)) as Hsum.
    { replace (frames_taken wav fpp (S k))
        with (Z.min (Z.of_nat k * fpp + fpp) (len / c))
        by (unfold frames_taken; fold len c; f_equal; lia).
      assert (0 <= Z.of_nat k * fpp) as HA by nia.
      exact (taken_step _ fpp (len / c) m got Hf HT HA eq_refl Hgot). }
    split; [|split; congruence].
    rewrite Hu', Hu, drop_drop, <- Hsum. f_equal. nia.
Qed.

(** The read of column [k]: the frames [frames_taken k .. frames_taken
    (k+1) - 1], and in channel 0 of the buffer their samples of channel 0. *)
Lemma column_read_taken wav block fpp (k : nat) :
  1 <= sf_channels wav -> 0 <= fpp ->
  fpp * sf_channels wav <= Z.of_nat (length block) ->
  let c := sf_channels wav in
  let r := column_read wav block fpp k in
  r.1.1 = frames_taken wav fpp (S k) - frames_taken wav fpp k /\
  0 <= r.1.1 <= fpp /\
  sf_channels r.2 = c /\ length r.1.2 = length block /\
  left_channel c r.1.2 0 r.1.1
  = left_channel c (sf_unread wav) (frames_taken wav fpp k) r.1.1.
Proof.
  intros Hc Hf Hb c r. unfold r, column_read.
  destruct (reads_taken wav block fpp k Hc Hf Hb) as (Hu & Hch & Hl).
  pose proof (reads_taken wav block fpp (S k) Hc Hf Hb) as (HuS & _ & _).
  cbn [reads] in HuS.
  destruct (reads wav block fpp k) as [w b]. cbn [fst snd] in *.
  destruct (readf w b fpp) as [[got b'] w'] eqn:Hread. cbn [fst snd] in *.
  assert (1 <= sf_channels w) as Hcw by lia.
  assert (fpp * sf_channels w <= Z.of_nat (length b)) as Hbw
    by (rewrite Hch, Hl; exact Hb).
  pose proof (readf_length w b fpp got b' w' Hcw Hf Hbw Hread) as Hl'.
  destruct (readf_spec w b fpp got b' w' Hcw Hf Hread)
    as (Hgot & Hg & Hn & Hb' & Hch' & _ & Hu').
  rewrite Hch in *. fold c in Hgot, Hg, Hn, Hb', Hch', Hu', Hu, HuS.
  set (len := Z.of_nat (length (sf_unread wav))) in *.
  assert (0 <= len / c) as HT by (apply Z.div_pos; unfold c; lia).
  assert (len / c * c <= len) as HTc
    by (rewrite Z.mul_comm; apply Z.mul_div_le; unfold c; lia).
  set (m := frames_taken wav fpp k) in *.
  assert (0 <= m <= len / c) as Hm by (unfold m, frames_taken; fold len c; lia).
  assert (Z.of_nat (length (sf_unread w)) = len - m * c) as Hlen.
  { rewrite Hu, length_drop. unfold len. nia. }
  assert (Z.of_nat (length (sf_unread w)) / c = len / c - m) as Hq.
  { rewrite Hlen. replace (len - m * c) with (len + - m * c) by lia.
    rewrite Z.div_add by (unfold c; lia). lia. }
  rewrite Hq in Hgot.
  assert (got = frames_taken wav fpp (S k) - m) as Hsum.
  { replace (frames_taken wav fpp (S k))
      with (Z.min (Z.of_nat k * fpp + fpp) (len / c))
      by (unfold frames_taken; fold len c; f_equal; lia).
    assert (0 <= Z.of_nat k * fpp) as HA by nia.
    pose proof (taken_step _ fpp (len / c) m got Hf HT HA eq_refl Hgot) as Hs.
    lia. }
  split; [exact Hsum|]. split; [exact Hg|]. split; [exact Hch'|].
  split; [congruence|].
  unfold left_channel.
  replace (seqZ m got) with (Z.add m <$> seqZ 0 got)
    by (rewrite fmap_add_seqZ; f_equal; lia).
  rewrite <- list_fmap_compose. apply list_fmap_ext.
  intros i j Hj. apply lookup_seqZ in Hj as [-> Hi]. simpl.
  replace (0 + Z.of_nat i) with (Z.of_nat i) by lia.
  rewrite Hb', lookup_app_l by (rewrite length_take; unfold c in *; nia).
  rewrite lookup_take_lt by (unfold c in *; nia).
  rewrite Hu, lookup_drop. do 2 f_equal. unfold c in *. nia.
Qed.

(** The span of column [k] of a run: the assertions on [y1] and [y2] for
    the minimum and the maximum, seeded with 0, of channel 0 in the frames of
    the column. *)
Lemma column_span_envelope h fpp wav block (k : nat) :
  1 <= sf_channels wav -> 1 <= fpp ->
  fpp * sf_channels wav <= Z.of_nat (length block) ->
  Z.of_nat (length block) < 2 ^ 31 ->
  column_span h fpp wav block k
  = check_spans h
      (envelope 0 0
         (left_channel (sf_channels wav) (sf_unread wav) (frames_taken wav fpp k)
            (frames_taken wav fpp (S k) - frames_taken wav fpp k))).
Proof.
  intros Hc Hf Hb Hint.
  assert (0 <= fpp) as Hf0 by lia.
  pose proof (column_read_taken wav block fpp k Hc Hf0 Hb) as H.
  cbv zeta in H. unfold column_span.
  destruct (column_read wav block fpp k) as [[got b'] w']. cbn [fst snd] in H.
  destruct H as (Hgot & Hg & Hch & Hl & Hleft).
  rewrite Hch, compute_spans_envelope; [|lia|lia|rewrite Hl; nia|nia].
  rewrite Hleft, Hgot. reflexivity.
Qed.

Lemma rendered_span_envelope wav w h x :
  1 <= sf_channels wav -> 0 <= x ->
  rendered_span wav w h x =
  (_ ← samples_per_pixel (sf_channels wav) (frames_per_pixel (sf_frames wav) w);
   check_spans h
     (column_envelope wav (frames_per_pixel (sf_frames wav) w) (Z.to_nat x))).
Proof.
  intros Hc Hx. unfold rendered_span, column_envelope.
  pose proof (frames_per_pixel_pos (sf_frames wav) w) as Hf.
  destruct (samples_per_pixel _ _) as [spp|e] eqn:E; [|reflexivity].
  apply samples_per_pixel_Ok in E as [-> Hspp]. rewrite !bind_Ok_l.
  apply column_span_envelope; try lia.
  - rewrite length_replicate, Z2Nat.id by lia. lia.
  - rewrite length_replicate, Z2Nat.id by lia. lia.
Qed.

Lemma frames_taken_step wav fpp (k : nat) :
  1 <= sf_channels wav -> 0 <= fpp ->
  0 <= frames_taken wav fpp k /\
  0 <= frames_taken wav fpp (S k) - frames_taken wav fpp k <= fpp /\
  frames_taken wav fpp (S k)
  <= Z.of_nat (length (sf_unread wav)) / sf_channels wav.
Proof.
  intros Hc Hf. unfold frames_taken.
  assert (0 <= Z.of_nat (length (sf_unread wav)) / sf_channels wav)
    by (apply Z.div_pos; lia).
  replace (Z.of_nat (S k) * fpp) with (Z.of_nat k * fpp + fpp) by lia.
  assert (0 <= Z.of_nat k * fpp) by nia. lia.
Qed.

(** X4: what column [x] of the image that a run leaves shows.  With [xs]
    the column of the rendered image that it is taken from ([x] itself, or
    [x * W / width] after scaling up), [fpp] the frames per pixel and [T]
    the number of whole frames that the source holds, the column is painted
    with the span of the minimum and the maximum, seeded with 0, of channel
    0 over the frames [min(xs * fpp, T) .. min((xs + 1) * fpp, T) - 1] of the
    source: at most [fpp] frames, none once the source is used up. *)
Theorem X4_column_shows_its_frames wav out bg fg final x :
  1 <= sf_channels wav -> 0 <= sf_frames wav -> wf_image out ->
  compute_waveform wav out bg fg = Ok final ->
  0 <= x < get_width out ->
  let c := sf_channels wav in
  let w := render_width (sf_frames wav) (get_width out) in
  let fpp := frames_per_pixel (sf_frames wav) w in
  let T := Z.of_nat (length (sf_unread wav)) / c in
  let xs := source_column (sf_frames wav) (get_width out) x in
  let first := Z.min (xs * fpp) T in
  let count := Z.min ((xs + 1) * fpp) T - first in
  0 <= xs < w /\ 0 <= count <= fpp /\
  exists span,
    check_spans (get_height out)
      (envelope 0 0 (left_channel c (sf_unread wav) first count)) = Ok span /\
    forall y, 0 <= y < get_height out ->
      get_pixel final x y = Some (column_color bg fg span y).
Proof.
  intros Hc Hf Hwf Hrun Hx c w fpp T xs first count.
  destruct (render_loop_of_run wav out bg fg final Hf Hwf Hrun) as (Hw & _).
  fold w in Hw.
  assert (0 <= xs < w) as Hxs.
  { unfold xs, source_column. fold w.
    destruct (not_enough_samples (sf_frames wav) (get_width out)) eqn:E.
    - split; [apply Z.div_pos; nia|apply Z.div_lt_upper_bound; nia].
    - unfold w, render_width in *. rewrite E in *. lia. }
  pose proof (frames_per_pixel_pos (sf_frames wav) w) as Hfpp. fold fpp in Hfpp.
  pose proof (frames_taken_step wav fpp (Z.to_nat xs) Hc ltac:(lia)) as (_ & Hcount & _).
  assert (frames_taken wav fpp (Z.to_nat xs) = first) as Hfirst
    by (unfold frames_taken, first, T, c; rewrite Z2Nat.id by lia; reflexivity).
  assert (frames_taken wav fpp (S (Z.to_nat xs)) - first = count) as Hcnt.
  { unfold frames_taken, count, T, c.
    rewrite Nat2Z.inj_succ, Z2Nat.id by lia. reflexivity. }
  rewrite Hfirst, Hcnt in Hcount.
  split; [exact Hxs|]. split; [exact Hcount|].
  destruct (compute_waveform_pixels wav out bg fg final Hf Hwf Hrun)
    as (_ & _ & _ & Hpx).
  destruct (Hpx x Hx) as (span & Hspan & _ & _ & Hcol).
  fold w xs in Hspan.
  rewrite rendered_span_envelope in Hspan by lia. fold fpp in Hspan.
  apply bind_Ok in Hspan as (spp & _ & Hspan).
  unfold column_envelope in Hspan. rewrite Hfirst, Hcnt in Hspan.
  exists span. split; [exact Hspan|exact Hcol].
Qed.

Lemma X4_column_shows_its_frames_witness :
  exists span,
    check_spans 8 (envelope 0 0 [-32768; 32767]) = Ok span /\
    forall y, 0 <= y < 8 ->
      get_pixel nine_frames_4x8 1 y = Some (column_color white black span y).
Proof.
  assert (1 <= sf_channels nine_frames) as Hc by (simpl; lia).
  assert (0 <= sf_frames nine_frames) as Hf by (simpl; lia).
  assert (wf_image (new_image 4 8)) as Hwf
    by (apply wf_new_image; unfold is_unsigned; lia).
  assert (compute_waveform nine_frames (new_image 4 8) white black
          = Ok nine_frames_4x8) as Hrun by (vm_compute; reflexivity).
  assert (0 <= 1 < get_width (new_image 4 8)) as Hx by (simpl; lia).
  exact (proj2 (proj2 (X4_column_shows_its_frames nine_frames (new_image 4 8)
                         white black nine_frames_4x8 1 Hc Hf Hwf Hrun Hx))).
Defined.

(** Runs on two sources whose columns have the same spans leave the same
    pixels. *)
Lemma same_spans_same_pixels wav1 wav2 out bg fg final1 :
  sf_frames wav1 = sf_frames wav2 -> 0 <= sf_frames wav1 -> wf_image out ->
  (forall x, 0 <= x < render_width (sf_frames wav1) (get_width out) ->
     rendered_span wav1 (render_width (sf_frames wav1) (get_width out)) (get_height out) x
     = rendered_span wav2 (render_width (sf_frames wav1) (get_width out)) (get_height out) x) ->
  compute_waveform wav1 out bg fg = Ok final1 ->
  exists final2,
    compute_waveform wav2 out bg fg = Ok final2 /\ pixbuf final1 = pixbuf final2.
Proof.
  intros Hfr Hf Hwf Hsame Hrun1.
  assert (0 <= sf_frames wav2) as Hf2 by lia.
  destruct (compute_waveform_inv _ _ _ _ _ Hf Hwf Hrun1) as (drawn & _ & Hpos & Hr & _).
  destruct (drawn_image_width wav1 out) as [HW HH].
  destruct Hr as (_ & _ & _ & _ & Hcols).
  rewrite HW, HH in Hcols. rewrite HW in Hpos.
  destruct (compute_waveform_total wav2 out bg fg Hf2 Hwf) as (final2 & Hrun2).
  { lia. }
  { rewrite <- Hfr. intros x Hx.
    destruct (Hcols x Hx) as (span & Hspan & _).
    rewrite Hsame in Hspan by lia. eauto. }
  exists final2. split; [exact Hrun2|].
  destruct (compute_waveform_pixels _ _ _ _ _ Hf Hwf Hrun1) as (Hwff1 & Hw1 & Hh1 & Hpx1).
  destruct (compute_waveform_pixels _ _ _ _ _ Hf2 Hwf Hrun2) as (Hwff2 & Hw2 & Hh2 & Hpx2).
  apply pixbuf_ext; [exact Hwff1|exact Hwff2|congruence|congruence|].
  intros x y [Hx Hy]. rewrite Hw1 in Hx. rewrite Hh1 in Hy.
  destruct (Hpx1 x Hx) as (span1 & Hsp1 & _ & _ & Hcol1).
  destruct (Hpx2 x Hx) as (span2 & Hsp2 & _ & _ & Hcol2).
  rewrite <- Hfr in Hsp2. rewrite Hsame in Hsp1.
  - rewrite Hsp1 in Hsp2. injection Hsp2 as <-.
    rewrite Hcol1, Hcol2 by lia. reflexivity.
  - unfold source_column, render_width in *.
    destruct (not_enough_samples _ _); [|lia].
    split; [apply Z.div_pos; nia|apply Z.div_lt_upper_bound; nia].
Qed.

Lemma column_envelope_ext wav1 wav2 fpp k :
  sf_channels wav2 = sf_channels wav1 ->
  length (sf_unread wav2) = length (sf_unread wav1) ->
  (forall j, 0 <= j < frames_taken wav1 fpp (S k) ->
     sf_unread wav1 !! Z.to_nat (j * sf_channels wav1)
     = sf_unread wav2 !! Z.to_nat (j * sf_channels wav1)) ->
  1 <= sf_channels wav1 -> 0 <= fpp ->
  column_envelope wav1 fpp k = column_envelope wav2 fpp k.
Proof.
  intros Hch Hlen Hleft Hc Hf. unfold column_envelope.
  assert (forall n, frames_taken wav2 fpp n = frames_taken wav1 fpp n) as Ht
    by (intros n; unfold frames_taken; rewrite Hch, Hlen; reflexivity).
  rewrite !Ht, Hch. f_equal.
  unfold left_channel. apply list_fmap_ext. intros i j Hj.
  apply lookup_seqZ in Hj as [-> Hi].
  pose proof (frames_taken_step wav1 fpp k Hc Hf) as (H0 & _ & _).
  rewrite Hleft by lia. reflexivity.
Qed.

(** X5: what is drawn is channel 0 of the first [w * frames_per_pixel]
    frames, [w] being the width that is rendered.  Two sources with the
    same frame count and channel count that agree on these samples leave
    the same pixels, whatever their other channels and their later frames
    hold. *)
Theorem X5_only_left_channel_of_leading_frames wav1 wav2 out bg fg final1 :
  1 <= sf_channels wav1 -> sf_channels wav2 = sf_channels wav1 ->
  0 <= sf_frames wav1 -> sf_frames wav2 = sf_frames wav1 ->
  length (sf_unread wav2) = length (sf_unread wav1) ->
  let w := render_width (sf_frames wav1) (get_width out) in
  (forall j, 0 <= j < w * frames_per_pixel (sf_frames wav1) w ->
     sf_unread wav1 !! Z.to_nat (j * sf_channels wav1)
     = sf_unread wav2 !! Z.to_nat (j * sf_channels wav1)) ->
  wf_image out ->
  compute_waveform wav1 out bg fg = Ok final1 ->
  exists final2,
    compute_waveform wav2 out bg fg = Ok final2 /\ pixbuf final1 = pixbuf final2.
Proof.
  intros Hc Hch Hf Hfr Hlen w Hleft Hwf Hrun1.
  apply (same_spans_same_pixels wav1 wav2 out bg fg final1); auto.
  fold w. intros x Hx.
  rewrite !rendered_span_envelope by lia.
  rewrite Hch, Hfr.
  pose proof (frames_per_pixel_pos (sf_frames wav1) w) as Hpos.
  rewrite (column_envelope_ext wav1 wav2); auto; [|lia].
  intros j Hj. apply Hleft.
  assert (frames_taken wav1 (frames_per_pixel (sf_frames wav1) w) (S (Z.to_nat x))
          <= (x + 1) * frames_per_pixel (sf_frames wav1) w) as Hle.
  { unfold frames_taken. rewrite Nat2Z.inj_succ, Z2Nat.id by lia. lia. }
  nia.
Qed.

Lemma X5_only_left_channel_of_leading_frames_witness :
  exists final2,
    compute_waveform five_frames_other (new_image 2 8) white black = Ok final2 /\
    pixbuf five_frames_2x8 = pixbuf final2.
Proof.
  apply (X5_only_left_channel_of_leading_frames five_frames five_frames_other
           (new_image 2 8) white black five_frames_2x8).
  - simpl; lia.
  - reflexivity.
  - simpl; lia.
  - reflexivity.
  - reflexivity.
  - intros j Hj. change (0 <= j < 4) in Hj.
    assert (j = 0 \/ j = 1 \/ j = 2 \/ j = 3) as [->|[->|[->| ->]]] by lia;
      reflexivity.
  - apply wf_new_image; unfold is_unsigned; lia.
  - vm_compute; reflexivity.
Defined.

Lemma check_spans_zero h : is_unsigned h -> check_spans h (0, 0) = Ok (h / 2, h / 2).
Proof.
  intros Hh. unfold check_spans. cbn [fst snd].
  rewrite span_top_zero, span_bottom_zero by exact Hh.
  assert (0 <= h / 2 <= h) as Hhalf.
  { unfold is_unsigned in Hh.
    split; [apply Z.div_pos; lia|apply Z.div_le_upper_bound; lia]. }
  rewrite (proj2 (Z.leb_le 0 (h / 2))), (proj2 (Z.leb_le (h / 2) h)) by lia.
  rewrite Z.leb_refl. reflexivity.
Qed.

Lemma samples_per_pixel_small channels fpp :
  0 <= channels * fpp < 2 ^ 31 ->
  samples_per_pixel channels fpp = Ok (channels * fpp).
Proof.
  intros H. unfold samples_per_pixel.
  rewrite (proj2 (Z.leb_le (- 2 ^ 31) (channels * fpp))) by lia.
  rewrite (proj2 (Z.ltb_lt (channels * fpp) (2 ^ 31))) by lia.
  rewrite (proj2 (Z.leb_le 0 (channels * fpp))) by lia. reflexivity.
Qed.

(** X6: a source whose channel 0 is silent gives an image of the
    background colour only, whatever the other channels hold and whatever
    the height of the image. *)
Theorem X6_silent_left_channel_blank wav out bg fg :
  wf_source wav -> wf_image out -> 0 < get_width out ->
  sf_channels wav
  * frames_per_pixel (sf_frames wav) (render_width (sf_frames wav) (get_width out))
  < 2 ^ 31 ->
  (forall j, 0 <= j ->
     default 0 (sf_unread wav !! Z.to_nat (j * sf_channels wav)) = 0) ->
  exists final,
    compute_waveform wav out bg fg = Ok final /\
    forall x y, in_image out x y -> get_pixel final x y = Some bg.
Proof.
  intros (Hc & Hf & _) Hwf Hw Hspp Hsilent. pose proof Hwf as (_ & Hhu & _).
  set (W := render_width (sf_frames wav) (get_width out)) in *.
  pose proof (frames_per_pixel_pos (sf_frames wav) W) as Hfpp.
  assert (forall x, 0 <= x ->
            rendered_span wav W (get_height out) x
            = Ok (get_height out / 2, get_height out / 2)) as Hspan.
  { intros x Hx. rewrite rendered_span_envelope by lia.
    rewrite samples_per_pixel_small by nia. rewrite bind_Ok_l.
    unfold column_envelope. rewrite envelope_zero; [apply check_spans_zero, Hhu|].
    unfold left_channel. apply Forall_fmap, Forall_forall. intros j Hj.
    apply elem_of_seqZ in Hj.
    pose proof (frames_taken_step wav (frames_per_pixel (sf_frames wav) W)
                  (Z.to_nat x) ltac:(lia) ltac:(lia)) as (H0 & _ & _).
    simpl. apply Hsilent. lia. }
  destruct (compute_waveform_total wav out bg fg) as (final & Hrun);
    [lia|exact Hwf|exact Hw| |].
  { intros x Hx. rewrite Hspan by lia. eauto. }
  exists final. split; [exact Hrun|].
  destruct (compute_waveform_pixels wav out bg fg final ltac:(lia) Hwf Hrun)
    as (_ & _ & _ & Hpx).
  intros x y [Hx Hy]. destruct (Hpx x Hx) as (span & Hsp & _ & _ & Hcol).
  fold W in Hsp. rewrite Hspan in Hsp.
  - injection Hsp as <-. rewrite (Hcol y Hy). unfold column_color. simpl.
    rewrite decide_False by lia. reflexivity.
  - unfold source_column. destruct (not_enough_samples _ _); [|lia].
    apply Z.div_pos; [|lia].
    assert (0 <= W); [|nia].
    unfold W, render_width.
    destruct (not_enough_samples _ _); [|lia]. destruct (0 <? sf_frames wav); lia.
Qed.

Lemma X6_silent_left_channel_blank_witness :
  exists final,
    compute_waveform silent_left (new_image 2 4) white black = Ok final /\
    forall x y, in_image (new_image 2 4) x y -> get_pixel final x y = Some white.
Proof.
  apply (X6_silent_left_channel_blank silent_left (new_image 2 4) white black).
  - unfold wf_source, silent_left. simpl.
    split; [lia|]. split; [lia|]. split; [reflexivity|].
    repeat constructor; unfold is_short; lia.
  - apply wf_new_image; unfold is_unsigned; lia.
  - simpl; lia.
  - vm_compute; reflexivity.
  - intros j Hj. simpl.
    destruct (Z.to_nat (j * 2)) as [|[|[|[|[|[|n]]]]]] eqn:E;
      try reflexivity; exfalso; lia.
Defined.

(** ** How a run can fail *)

(** A loop aborts with the abort of one of its steps. *)
Lemma for_each_abort {St : Type} (P : nat -> St -> Prop) (Q : abort -> Prop)
    (body : St -> Z -> result St) (l : list Z) (s : St) (e : abort) :
  P 0%nat s ->
  (forall i x t t', l !! i = Some x -> P i t -> body t x = Ok t' -> P (S i) t') ->
  (forall i x t e', l !! i = Some x -> P i t -> body t x = Abort e' -> Q e') ->
  for_each body s l = Abort e -> Q e.
Proof.
  revert P s. induction l as [|x l IH]; intros P s H0 Hstep Hfail Hrun; simpl in *.
  - discriminate.
  - destruct (body s x) as [t|e'] eqn:Hb; simpl in Hrun.
    + apply (IH (fun i => P (S i)) t).
      * apply (Hstep 0%nat x s t); [reflexivity|exact H0|exact Hb].
      * intros i y u u' Hl. apply (Hstep (S i)). exact Hl.
      * intros i y u e' Hl. apply (Hfail (S i)). exact Hl.
      * exact Hrun.
    + injection Hrun as <-. apply (Hfail 0%nat x s e'); [reflexivity|exact H0|exact Hb].
Qed.

(** Of the two assertions on a span only the one on [y2] can fail, and only
    in an image of more than [2^32 - 2^17] rows. *)
Lemma check_spans_abort h env e :
  is_unsigned h -> - 2 ^ 15 <= env.1 <= 0 -> 0 <= env.2 < 2 ^ 15 ->
  check_spans h env = Abort e ->
  e = AssertY2 /\ 2 ^ 32 < h + 2 ^ 17.
Proof.
  intros Hh Hmn Hmx. unfold check_spans.
  pose proof (span_top_le_half h env.1 Hh Hmn) as H1.
  pose proof (span_bottom_range h env.2 Hh) as H2.
  assert ((0 <=? span_top h env.1) && (span_top h env.1 <=? h / 2) = true) as ->
    by (apply andb_true_iff; split; apply Z.leb_le; lia).
  simpl.
  destruct (_ && _) eqn:E; simpl; [discriminate|].
  intros [= <-]. split; [reflexivity|].
  destruct (Z_lt_le_dec (2 ^ 32) (h + 2 ^ 17)) as [Hlt|Hle]; [exact Hlt|].
  exfalso. unfold is_unsigned in Hh.
  pose proof (span_bottom_ge_half h env.2 ltac:(lia) Hle Hmx) as H3.
  apply andb_false_iff in E as [E|E]; apply Z.leb_gt in E; lia.
Qed.

Lemma column_envelope_range wav fpp k :
  Forall is_short (sf_unread wav) ->
  - 2 ^ 15 <= (column_envelope wav fpp k).1 <= 0 /\
  0 <= (column_envelope wav fpp k).2 < 2 ^ 15.
Proof.
  intros Hshort. unfold column_envelope. apply envelope_range; [|lia..].
  unfold left_channel. apply Forall_fmap, Forall_forall. intros j _. simpl.
  destruct (sf_unread wav !! Z.to_nat (j * sf_channels wav)) as [s|] eqn:Hs; simpl.
  - exact (proj1 (Forall_lookup _ _) Hshort _ _ Hs).
  - unfold is_short. lia.
Qed.

Lemma rendered_span_abort wav w h x e :
  wf_source wav -> is_unsigned h -> 0 <= x ->
  rendered_span wav w h x = Abort e ->
  (e = Undefined /\
   2 ^ 31 <= sf_channels wav * frames_per_pixel (sf_frames wav) w) \/
  (e = AssertY2 /\ 2 ^ 32 < h + 2 ^ 17).
Proof.
  intros (Hc & _ & _ & Hshort) Hh Hx. rewrite rendered_span_envelope by lia.
  pose proof (frames_per_pixel_pos (sf_frames wav) w) as Hf.
  destruct (Z_lt_le_dec (sf_channels wav * frames_per_pixel (sf_frames wav) w) (2 ^ 31))
    as [Hlt|Hle].
  - rewrite samples_per_pixel_small by nia. rewrite bind_Ok_l. intros Hrun. right.
    destruct (column_envelope_range wav (frames_per_pixel (sf_frames wav) w)
                (Z.to_nat x) Hshort) as [Hmn Hmx].
    exact (check_spans_abort h _ e Hh Hmn Hmx Hrun).
  - unfold samples_per_pixel.
    rewrite (proj2 (Z.ltb_ge _ _) Hle), andb_false_r. simpl.
    intros [= <-]. left. split; [reflexivity|exact Hle].
Qed.

(** A column aborts with the abort of its span: painting never fails. *)
Lemma render_column_abort bg fg fpp wav0 block0 img0 k st e :
  Z.of_nat k < get_width img0 ->
  columns_done bg fg fpp wav0 block0 img0 k st ->
  render_column bg fg (get_height img0) fpp st (Z.of_nat k) = Abort e ->
  column_span (get_height img0) fpp wav0 block0 k = Abort e.
Proof.
  intros Hk Hdone Hrun.
  destruct (column_span (get_height img0) fpp wav0 block0 k) as [span|e'] eqn:Hspan.
  - destruct (columns_done_S bg fg fpp wav0 block0 img0 k st span Hk Hdone Hspan)
      as (st' & Hb & _).
    rewrite Hb in Hrun. discriminate.
  - destruct Hdone as (Hrd & _). destruct st as [[wav block] img]. cbn [fst snd] in *.
    unfold column_span, column_read in Hspan. rewrite <- Hrd in Hspan.
    unfold render_column in Hrun.
    destruct (readf wav block fpp) as [[got block'] wav'].
    rewrite Hspan in Hrun. simpl in Hrun. injection Hrun as <-. reflexivity.
Qed.

Lemma render_abort bg fg wav img e :
  wf_image img ->
  render wav img (get_height img) bg fg = Abort e ->
  (e = AssertWidth /\ get_width img = 0) \/
  exists x, 0 <= x < get_width img /\
    rendered_span wav (get_width img) (get_height img) x = Abort e.
Proof.
  intros Hwf Hrun. pose proof Hwf as (Hwu & _). unfold is_unsigned in Hwu.
  unfold render in Hrun.
  destruct (0 <? get_width img) eqn:Hw; simpl in Hrun.
  - apply Z.ltb_lt in Hw. right.
    destruct (samples_per_pixel _ _) as [spp|e'] eqn:Hspp; simpl in Hrun.
    + destruct (for_each _ _ _) as [[[wav' block'] img']|e'] eqn:Hloop;
        simpl in Hrun; [discriminate|]. injection Hrun as <-.
      refine (for_each_abort
                (columns_done bg fg (frames_per_pixel (sf_frames wav) (get_width img))
                   wav (replicate (Z.to_nat spp) 0) img)
                (fun e => exists x, 0 <= x < get_width img /\
                   rendered_span wav (get_width img) (get_height img) x = Abort e)
                _ _ _ _ (columns_done_0 _ _ _ _ _ _ Hwf) _ _ Hloop).
      * intros i x t t' Hl Hdone Hbody.
        apply lookup_seqZ in Hl as [-> Hi]. rewrite Z.add_0_l in Hbody.
        destruct (render_column_inv _ _ _ _ _ _ _ _ _ Hdone Hbody) as (span & Hspan).
        destruct (columns_done_S _ _ _ _ _ _ _ _ _ Hi Hdone Hspan) as (t'' & Hb' & Hdone').
        rewrite Hbody in Hb'. injection Hb' as <-. exact Hdone'.
      * intros i x t e'' Hl Hdone Hbody.
        apply lookup_seqZ in Hl as [-> Hi]. rewrite Z.add_0_l in Hbody.
        apply (render_column_abort _ _ _ _ _ _ _ _ _ Hi Hdone) in Hbody.
        exists (Z.of_nat i). split; [lia|].
        unfold rendered_span. rewrite Hspp, Nat2Z.id. exact Hbody.
    + injection Hrun as <-. exists 0. split; [lia|].
      unfold rendered_span. rewrite Hspp. reflexivity.
  - apply Z.ltb_ge in Hw. injection Hrun as <-. left. split; [reflexivity|lia].
Qed.

(** X7: the ways in which a run on well-formed input can fail.  It stops
    at [assert(image.get_width() > 0)] when the image has no columns; it
    leaves defined behaviour when [wav.channels() * frames_per_pixel]
    overflows [int]; and [assert(height/2 <= y2 && y2 <= height)] fails in
    an image of more than [2^32 - 2^17] rows.  The assertions on [n], on
    [y1] and on [xx] never fail, no pixel is read or written outside an
    image, and the scan never reads outside the block. *)
Theorem X7_why_a_run_fails wav out bg fg e :
  wf_source wav -> wf_image out ->
  compute_waveform wav out bg fg = Abort e ->
  (e = AssertWidth /\ get_width out = 0) \/
  (e = Undefined /\
   2 ^ 31 <= sf_channels wav
             * frames_per_pixel (sf_frames wav)
                 (render_width (sf_frames wav) (get_width out))) \/
  (e = AssertY2 /\ 2 ^ 32 < get_height out + 2 ^ 17).
Proof.
  intros Hsrc Hwf Hrun. pose proof Hsrc as (_ & Hfr & _).
  pose proof Hwf as (_ & Hhu & _).
  destruct (drawn_image_width wav out) as [HW HH].
  assert (render wav (drawn_image wav out) (get_height (drawn_image wav out)) bg fg
          = Abort e) as Hrender.
  { rewrite compute_waveform_unfold in Hrun. rewrite HH.
    destruct (not_enough_samples (sf_frames wav) (get_width out)) eqn:E; [|exact Hrun].
    destruct (render wav (drawn_image wav out) (get_height out) bg fg)
      as [small|e'] eqn:Hr; simpl in Hrun; [|exact Hrun].
    exfalso.
    destruct (wf_drawn_image wav out ltac:(lia) Hwf)
      as [(Hwfd & Hhd & Hwd & Hpos)|(Hwfd & Hhd & Hwd & _ & H0)].
    - rewrite <- Hhd in Hr. apply render_inv in Hr as [_ Hrd]; [|exact Hwfd].
      destruct Hrd as (Hwf' & Hw' & Hh' & _).
      destruct (upscale_spec small out Hwf' Hwf) as (out' & Hup & _);
        [congruence|lia|]. congruence.
    - rewrite <- Hhd in Hr. apply render_inv in Hr as [Hpos _]; [|exact Hwfd].
      unfold not_enough_samples in E. apply Z.ltb_lt in E. lia. }
  assert (wf_image (drawn_image wav out)) as Hwfd
    by (destruct (wf_drawn_image wav out ltac:(lia) Hwf) as [(H & _)|(H & _)]; exact H).
  apply (render_abort _ _ _ _ _ Hwfd) in Hrender as [[-> H0]|(x & Hx & Hspan)].
  - left. split; [reflexivity|].
    destruct (wf_drawn_image wav out ltac:(lia) Hwf)
      as [(_ & _ & _ & Hpos)|(_ & _ & _ & _ & H0')]; [lia|exact H0'].
  - right. rewrite HW, HH in Hspan.
    exact (rendered_span_abort wav _ _ x e Hsrc Hhu (proj1 Hx) Hspan).
Qed.

Lemma X7_why_a_run_fails_witness :
  (AssertWidth = AssertWidth /\ get_width (new_image 0 4) = 0) \/
  (AssertWidth = Undefined /\
   2 ^ 31 <= sf_channels two_frames
             * frames_per_pixel (sf_frames two_frames)
                 (render_width (sf_frames two_frames) (get_width (new_image 0 4)))) \/
  (AssertWidth = AssertY2 /\ 2 ^ 32 < get_height (new_image 0 4) + 2 ^ 17).
Proof.
  apply (X7_why_a_run_fails two_frames (new_image 0 4) white black AssertWidth).
  - unfold wf_source, two_frames. simpl.
    split; [lia|]. split; [lia|]. split; [reflexivity|].
    repeat constructor; unfold is_short; lia.
  - apply wf_new_image; unfold is_unsigned; lia.
  - vm_compute; reflexivity.
Defined.

(** X8: on well-formed input, with [wav.channels() * frames_per_pixel]
    within [int] and an image of at most [2^32 - 2^17] rows, a run ends
    exactly when the image has a column, and the image that it leaves has
    the size of the one it was given. *)
Theorem X8_run_ends_iff_image_has_columns wav out bg fg :
  wf_source wav -> wf_image out ->
  get_height out + 2 ^ 17 <= 2 ^ 32 ->
  sf_channels wav
  * frames_per_pixel (sf_frames wav) (render_width (sf_frames wav) (get_width out))
  < 2 ^ 31 ->
  ((exists final, compute_waveform wav out bg fg = Ok final /\
      get_width final = get_width out /\ get_height final = get_height out)
   <-> 0 < get_width out) /\
  (get_width out = 0 -> compute_waveform wav out bg fg = Abort AssertWidth).
Proof.
  intros Hsrc Hwf Hh Hspp. pose proof Hsrc as (_ & Hfr & _).
  pose proof Hwf as (Hwu & _). unfold is_unsigned in Hwu.
  assert (0 <= sf_frames wav) as Hf0 by lia.
  split; [split|].
  - intros (final & Hrun & _).
    destruct (compute_waveform_inv _ _ _ _ _ Hf0 Hwf Hrun) as (_ & _ & Hpos & _).
    lia.
  - intros Hw.
    destruct (compute_waveform_ends wav out bg fg Hsrc Hwf Hw Hh Hspp) as (final & Hrun).
    exists final. split; [exact Hrun|].
    destruct (compute_waveform_pixels _ _ _ _ _ Hf0 Hwf Hrun) as (_ & H1 & H2 & _).
    auto.
  - intros H0. rewrite compute_waveform_unfold.
    unfold not_enough_samples, drawn_image, not_enough_samples.
    rewrite (proj2 (Z.ltb_ge (sf_frames wav) (get_width out))) by lia.
    unfold render. rewrite H0. reflexivity.
Qed.

Lemma X8_run_ends_iff_image_has_columns_witness :
  (exists final, compute_waveform nine_frames (new_image 4 8) white black = Ok final /\
     get_width final = 4 /\ get_height final = 8)
  <-> 0 < 4.
Proof.
  refine (proj1 (X8_run_ends_iff_image_has_columns nine_frames (new_image 4 8)
                   white black _ _ _ _)).
  - unfold wf_source, nine_frames. simpl.
    split; [lia|]. split; [lia|]. split; [reflexivity|].
    repeat constructor; unfold is_short; lia.
  - apply wf_new_image; unfold is_unsigned; lia.
  - simpl; lia.
  - vm_compute; reflexivity.
Defined.

(** ** The frames that are drawn *)

(** X9: the frames that a run leaves unread.  When the loop over the
    columns of a run has ended, a source with fewer frames than the image
    has columns has been read to its end; otherwise, when the quotient fits
    an [int], the source stands [frame_count mod width] frames before its
    end: the last frames are never read. *)
Theorem X9_frames_left_unread wav out bg fg final :
  wf_source wav -> wf_image out ->
  0 < sf_frames wav -> sf_frames wav / get_width out < 2 ^ 31 ->
  compute_waveform wav out bg fg = Ok final ->
  let c := sf_channels wav in
  let w := render_width (sf_frames wav) (get_width out) in
  let fpp := frames_per_pixel (sf_frames wav) w in
  let rest :=
    if sf_frames wav <? get_width out then 0 else sf_frames wav mod get_width out in
  exists spp st,
    samples_per_pixel c fpp = Ok spp /\
    for_each (render_column bg fg (get_height out) fpp)
      (wav, replicate (Z.to_nat spp) 0, drawn_image wav out) (seqZ 0 w) = Ok st /\
    sf_unread st.1.1
    = drop (Z.to_nat ((sf_frames wav - rest) * c)) (sf_unread wav) /\
    Z.of_nat (length (sf_unread st.1.1)) = rest * c.
Proof.
  intros Hsrc Hwf Hpos Hq Hrun c w fpp rest.
  pose proof Hsrc as (Hc & Hfr & Hlen & _). fold c in Hc, Hlen.
  destruct (render_loop_of_run wav out bg fg final (proj1 Hfr) Hwf Hrun)
    as (Hw & spp & st & Hspp & Hloop).
  fold w in Hw. fold w fpp c in Hspp, Hloop.
  exists spp, st. split; [exact Hspp|]. split; [exact Hloop|].
  apply samples_per_pixel_Ok in Hspp as [-> Hspp].
  pose proof (frames_per_pixel_pos (sf_frames wav) w) as Hfpp. fold fpp in Hfpp.
  assert (w * fpp = sf_frames wav - rest) as Hdrawn.
  { unfold rest, fpp, w.
    destruct (sf_frames wav <? get_width out) eqn:E.
    - apply Z.ltb_lt in E.
      rewrite render_width_max by lia. rewrite Z.max_l by lia.
      rewrite frames_per_pixel_exact by (rewrite ?Z.div_same; lia).
      rewrite Z.div_same by lia. lia.
    - apply Z.ltb_ge in E.
      rewrite render_width_direct by lia.
      rewrite frames_per_pixel_exact by lia.
      assert (1 <= sf_frames wav / get_width out)
        by (apply Z.div_le_lower_bound; lia).
      rewrite Z.max_r by lia.
      pose proof (Z.div_mod (sf_frames wav) (get_width out) ltac:(lia)). lia. }
  assert (0 <= rest).
  { unfold rest. destruct (sf_frames wav <? get_width out); [lia|].
    apply Z.mod_pos_bound. lia. }
  destruct (drawn_image_width wav out) as [HWd HHd]. fold w in HWd.
  assert (wf_image (drawn_image wav out)) as Hwfd.
  { destruct (wf_drawn_image wav out (proj1 Hfr) Hwf) as [(H' & _)|(H' & _)]; exact H'. }
  rewrite <- HHd in Hloop.
  destruct (loop_state_unread bg fg fpp wav (replicate (Z.to_nat (c * fpp)) 0)
              (drawn_image wav out) w st) as [_ Hun];
    [lia|exact Hfpp|exact Hwfd|lia| | |exact Hloop|].
  { fold c. rewrite Hlen, Hdrawn. nia. }
  { fold c. rewrite length_replicate, Z2Nat.id; lia. }
  fold c in Hun. rewrite Hdrawn in Hun.
  split; [exact Hun|].
  rewrite Hun, length_drop. nia.
Qed.

Lemma X9_frames_left_unread_witness :
  exists spp st,
    samples_per_pixel 1 2 = Ok spp /\
    for_each (render_column white black 8 2)
      (nine_frames, replicate (Z.to_nat spp) 0, new_image 4 8) (seqZ 0 4) = Ok st /\
    sf_unread st.1.1 = [3] /\
    Z.of_nat (length (sf_unread st.1.1)) = 1.
Proof.
  refine (X9_frames_left_unread nine_frames (new_image 4 8) white black
            nine_frames_4x8 _ _ _ _ _).
  - unfold wf_source, nine_frames. simpl.
    split; [lia|]. split; [lia|]. split; [reflexivity|].
    repeat constructor; unfold is_short; lia.
  - apply wf_new_image; unfold is_unsigned; lia.
  - simpl; lia.
  - vm_compute; reflexivity.
  - vm_compute; reflexivity.
Defined.

(** X10: a source with fewer frames than the image has columns loses no
    frame when the small image is scaled up: for every frame there is a
    column of the final image that shows the span of that frame alone, the
    one computed from [min(0, s)] and [max(0, s)] for its sample [s] of
    channel 0. *)
Theorem X10_every_frame_has_a_column wav out bg fg final j :
  wf_source wav -> wf_image out ->
  0 <= j < sf_frames wav -> sf_frames wav < get_width out ->
  compute_waveform wav out bg fg = Ok final ->
  let s := default 0 (sf_unread wav !! Z.to_nat (j * sf_channels wav)) in
  exists x span,
    0 <= x < get_width out /\
    check_spans (get_height out) (Z.min 0 s, Z.max 0 s) = Ok span /\
    forall y, 0 <= y < get_height out ->
      get_pixel final x y = Some (column_color bg fg span y).
Proof.
  intros Hsrc Hwf Hj Hfew Hrun s. pose proof Hsrc as (Hc & Hfr & Hlen & _).
  set (f := sf_frames wav) in *. set (w := get_width out) in *.
  assert (0 <= f) as Hf0 by lia.
  destruct (compute_waveform_pixels wav out bg fg final Hf0 Hwf Hrun)
    as (_ & _ & _ & Hpx). fold f w in Hpx.
  assert (render_width f w = f) as HW by (rewrite render_width_max by lia; lia).
  set (x := (j * w + f - 1) / f).
  assert (f * x <= j * w + f - 1 < f * x + f) as Hdiv.
  { pose proof (Z.div_mod (j * w + f - 1) f ltac:(lia)) as H1.
    pose proof (Z.mod_pos_bound (j * w + f - 1) f ltac:(lia)) as H2.
    fold x in H1. lia. }
  assert (0 <= x < w) as Hx by nia.
  assert (source_column f w x = j) as Hsc.
  { unfold source_column, not_enough_samples.
    rewrite (proj2 (Z.ltb_lt f w)) by lia. rewrite HW.
    symmetry. apply (Z.div_unique_pos _ _ _ (x * f - j * w)); nia. }
  destruct (Hpx x Hx) as (span & Hspan & _ & _ & Hcol).
  rewrite Hsc, HW in Hspan.
  exists x, span. split; [exact Hx|]. split; [|exact Hcol].
  rewrite <- Hspan. rewrite rendered_span_envelope by lia. fold f.
  assert (frames_per_pixel f f = 1) as ->.
  { rewrite frames_per_pixel_exact by (rewrite ?Z.div_same; lia).
    rewrite Z.div_same by lia. reflexivity. }
  rewrite samples_per_pixel_small by lia. rewrite bind_Ok_l.
  unfold column_envelope, frames_taken.
  assert (Z.of_nat (length (sf_unread wav)) / sf_channels wav = f) as ->
    by (rewrite Hlen; apply Z.div_mul; lia).
  rewrite Nat2Z.inj_succ, Z2Nat.id by lia.
  rewrite (Z.min_l (j * 1) f), (Z.min_l (Z.succ j * 1) f) by lia.
  replace (Z.succ j * 1 - j * 1) with 1 by lia. rewrite Z.mul_1_r.
  reflexivity.
Qed.

Lemma X10_every_frame_has_a_column_witness :
  exists x span,
    0 <= x < 5 /\
    check_spans 4 (Z.min 0 32767, Z.max 0 32767) = Ok span /\
    forall y, 0 <= y < 4 ->
      get_pixel two_frames_5x4 x y = Some (column_color white black span y).
Proof.
  refine (X10_every_frame_has_a_column two_frames (new_image 5 4) white black
            two_frames_5x4 1 _ _ _ _ _).
  - unfold wf_source, two_frames. simpl.
    split; [lia|]. split; [lia|]. split; [reflexivity|].
    repeat constructor; unfold is_short; lia.
  - apply wf_new_image; unfold is_unsigned; lia.
  - simpl; lia.
  - simpl; lia.
  - vm_compute; reflexivity.
Defined.

(** ** What [main] leaves *)

(** X11: on a file that opens, well formed, with 32-bit sizes, at most
    [2^32 - 2^17] rows and [wav.channels() * frames_per_pixel] within [int],
    [main] returns 0 after writing, to the configured path, one image of the
    configured width and height, unless the width is 0: then it stops at
    [assert(image.get_width() > 0)] and writes nothing. *)
Theorem X11_main_writes_the_configured_size options open :
  let wav := open (input_file_name options) in
  sf_error wav = 0 -> wf_source wav ->
  is_unsigned (width options) -> is_unsigned (height options) ->
  height options + 2 ^ 17 <= 2 ^ 32 ->
  sf_channels wav
  * frames_per_pixel (sf_frames wav) (render_width (sf_frames wav) (width options))
  < 2 ^ 31 ->
  (0 < width options ->
     exists img,
       main options open
       = (Return 0, [ComputeWaveform; ImageWrite (output_file_name options) img]) /\
       get_width img = width options /\ get_height img = height options) /\
  (width options = 0 -> main options open = (Aborted AssertWidth, [ComputeWaveform])).
Proof.
  intros wav Herr Hsrc Hwu Hhu Hh Hspp. pose proof Hsrc as (_ & Hfr & _).
  assert (wf_image (new_image (width options) (height options))) as Hwf
    by (apply wf_new_image; assumption).
  assert (0 <= sf_frames wav) as Hf0 by lia.
  unfold main. fold wav.
  rewrite bool_decide_eq_false_2 by (intros H; apply H; exact Herr).
  split.
  - intros Hw.
    destruct (compute_waveform_ends wav (new_image (width options) (height options))
                (background_color options) (foreground_color options)
                Hsrc Hwf Hw Hh Hspp) as (final & Hrun).
    rewrite Hrun. exists final. split; [reflexivity|].
    destruct (compute_waveform_pixels _ _ _ _ _ Hf0 Hwf Hrun) as (_ & H1 & H2 & _).
    split; [exact H1|exact H2].
  - intros H0. rewrite compute_waveform_unfold.
    unfold drawn_image, not_enough_samples. cbn [get_width get_height new_image].
    rewrite (proj2 (Z.ltb_ge (sf_frames wav) (width options))) by lia.
    unfold render. cbn [get_width new_image]. rewrite H0. reflexivity.
Qed.

Lemma X11_main_writes_the_configured_size_witness :
  exists img,
    main sample_options (fun _ => nine_frames)
    = (Return 0, [ComputeWaveform; ImageWrite "a.png" img]) /\
    get_width img = 4 /\ get_height img = 8.
Proof.
  refine (proj1 (X11_main_writes_the_configured_size sample_options
                   (fun _ => nine_frames) _ _ _ _ _ _) _).
  - reflexivity.
  - unfold wf_source, nine_frames. simpl.
    split; [lia|]. split; [lia|]. split; [reflexivity|].
    repeat constructor; unfold is_short; lia.
  - unfold is_unsigned; simpl; lia.
  - unfold is_unsigned; simpl; lia.
  - simpl; lia.
  - vm_compute; reflexivity.
  - simpl; lia.
Defined.

(** ** The progress messages *)

Lemma seqZ_sorted w m (n : nat) :
  0 <= m -> m + Z.of_nat n <= w ->
  StronglySorted (fun a b => 0 <= a <= b /\ b < w) (seqZ m (Z.of_nat n)).
Proof.
  revert m. induction n as [|n IH]; intros m Hm Hn.
  - constructor.
  - rewrite seqZ_cons by lia.
    replace (Z.pred (Z.of_nat (S n))) with (Z.of_nat n) by lia.
    constructor; [apply IH; lia|].
    apply Forall_forall. intros k Hk. apply elem_of_seqZ in Hk. lia.
Qed.

Lemma filter_sorted {A : Type} (R : relation A) (P : A -> Prop)
    `{forall x, Decision (P x)} (l : list A) :
  StronglySorted R l -> StronglySorted R (filter P l).
Proof.
  induction 1 as [|x l Hs IH Hall]; [constructor|].
  rewrite filter_cons. case_decide; [|exact IH].
  constructor; [exact IH|].
  apply Forall_forall. intros y Hy. apply list_elem_of_filter in Hy as [_ Hy].
  exact (proj1 (Forall_forall _ _) Hall y Hy).
Qed.

Lemma progress_percent_small w x :
  0 <= x < w -> w < 2 ^ 32 -> progress_percent w x = 100 * x / w.
Proof.
  intros Hx Hw. unfold progress_percent, u64. rewrite Z.mod_small by lia.
  reflexivity.
Qed.

(** X12: the progress shown while an image [w] columns wide is drawn: the
    first number is 0, the numbers never decrease, all stay below 100 (the
    line "converting: 100%" comes after the loop), and at most 199 numbers
    are written, however wide the image. *)
Theorem X12_progress_messages w :
  0 < w < 2 ^ 32 ->
  head (progress w) = Some 0 /\
  StronglySorted Z.le (progress w) /\
  (forall p, p ∈ progress w -> 0 <= p < 100) /\
  (length (progress w) <= 199)%nat.
Proof.
  intros Hw. unfold progress.
  set (d := progress_divisor w).
  assert (1 <= d /\ (w < 100 -> d = 1) /\ (100 <= w -> w < 100 * d + 100)) as (Hd & Hd1 & Hd2).
  { unfold d, progress_divisor.
    pose proof (Z.div_mod w 100 ltac:(lia)) as H1.
    pose proof (Z.mod_pos_bound w 100 ltac:(lia)) as H2.
    assert (w < 100 -> w / 100 = 0) by (intros; apply Z.div_small; lia). lia. }
  split; [|split; [|split]].
  - rewrite seqZ_cons by lia. rewrite filter_cons_True by (apply Z.mod_0_l; lia).
    simpl. unfold progress_percent. reflexivity.
  - apply (StronglySorted_fmap _ (fun a b => 0 <= a <= b /\ b < w)).
    + intros x y [Hx Hy]. rewrite !progress_percent_small by lia.
      apply Z.div_le_mono; lia.
    + apply filter_sorted.
      replace (seqZ 0 w) with (seqZ 0 (Z.of_nat (Z.to_nat w)))
        by (rewrite Z2Nat.id by lia; reflexivity).
      apply seqZ_sorted; lia.
  - intros p Hp. apply list_elem_of_fmap in Hp as (x & -> & Hx).
    apply list_elem_of_filter in Hx as [_ Hx]. apply elem_of_seqZ in Hx.
    rewrite progress_percent_small by lia.
    split; [apply Z.div_pos; lia|apply Z.div_lt_upper_bound; lia].
  - rewrite length_fmap.
    rewrite <- (length_fmap (fun x => x / d)).
    assert (0 <= (w - 1) / d < 199) as HN.
    { split; [apply Z.div_pos; lia|apply Z.div_lt_upper_bound; [lia|]].
      destruct (Z_lt_le_dec w 100); [rewrite Hd1 by lia; lia|].
      specialize (Hd2 ltac:(lia)). lia. }
    transitivity (length (seqZ 0 ((w - 1) / d + 1))).
    + apply submseteq_length, NoDup_submseteq.
      * apply NoDup_fmap_2_strong; [|apply NoDup_filter, NoDup_seqZ].
        intros x y Hx Hy Heq.
        apply list_elem_of_filter in Hx as [Hx _].
        apply list_elem_of_filter in Hy as [Hy _].
        pose proof (Z.div_mod x d ltac:(lia)). pose proof (Z.div_mod y d ltac:(lia)).
        rewrite Heq in *. lia.
      * intros q Hq. apply list_elem_of_fmap in Hq as (x & -> & Hx).
        apply list_elem_of_filter in Hx as [_ Hx]. apply elem_of_seqZ in Hx.
        apply elem_of_seqZ.
        assert (x / d <= (w - 1) / d) by (apply Z.div_le_mono; lia).
        assert (0 <= x / d) by (apply Z.div_pos; lia). lia.
    + rewrite length_seqZ. lia.
Qed.

Lemma X12_progress_messages_witness :
  head (progress 250) = Some 0 /\
  StronglySorted Z.le (progress 250) /\
  (forall p, p ∈ progress 250 -> 0 <= p < 100) /\
  (length (progress 250) <= 199)%nat.
Proof.
  apply (X12_progress_messages 250). lia.
Defined.
